(** * ch-tools: replica restart / restore orchestration

    A shallow embedding of [ch_tools/chadmin/cli/replica_group.py]
    (commands [replica restart] and [replica restore]) together with the
    collaborators it calls.  Python strings are [string]s, keyword
    dictionaries are [gmap string value], exceptions are values of [exn]
    carried by a state-and-error monad over the observable world. *)

From stdpp Require Import base gmap strings list.
From Stdlib Require Import Ascii String ZArith Lia.

Local Open Scope string_scope.
Local Open Scope list_scope.

(** ** Python text primitives *)

Module Text.

(** [s.startswith(prefix)] *)
Fixpoint startswith (prefix s : string) : bool :=
  match prefix, s with
  | EmptyString, _ => true
  | String _ _, EmptyString => false
  | String a prefix', String b s' => Ascii.eqb a b && startswith prefix' s'
  end.

(** [needle in s] for two [str] values: a case-sensitive substring test. *)
Fixpoint contains (needle s : string) : bool :=
  startswith needle s ||
  match s with
  | EmptyString => false
  | String _ s' => contains needle s'
  end.

(** ASCII white space, the characters [str.strip()] removes. *)
Definition is_space (c : ascii) : bool :=
  let n := nat_of_ascii c in
  Nat.eqb n 32 || (Nat.leb 9 n && Nat.leb n 13).

Fixpoint lstrip (s : string) : string :=
  match s with
  | EmptyString => EmptyString
  | String c s' => if is_space c then lstrip s' else s
  end.

Fixpoint rstrip (s : string) : string :=
  match s with
  | EmptyString => EmptyString
  | String c s' =>
      match rstrip s' with
      | EmptyString => if is_space c then EmptyString else String c EmptyString
      | t => String c t
      end
  end.

(** [s.strip()] *)
Definition strip (s : string) : string := rstrip (lstrip s).

(** [s.split(",")]: every comma separates, empty items are kept. *)
Fixpoint split_comma (s : string) : list string :=
  match s with
  | EmptyString => [EmptyString]
  | String c s' =>
      if Ascii.eqb c ","%char then EmptyString :: split_comma s'
      else match split_comma s' with
           | [] => [String c EmptyString]
           | item :: items => String c item :: items
           end
  end.

(** [x in items] for a list of strings. *)
Definition member (x : string) (items : list string) : bool :=
  existsb (String.eqb x) items.

(** [",".join(items)], the inverse of the split. *)
Fixpoint join_comma (items : list string) : string :=
  match items with
  | [] => EmptyString
  | [item] => item
  | item :: items' => item ++ String ","%char (join_comma items')
  end.

Fixpoint all_space (s : string) : bool :=
  match s with
  | EmptyString => true
  | String c s' => is_space c && all_space s'
  end.

Definition first_char (s : string) : option ascii :=
  match s with
  | EmptyString => None
  | String c _ => Some c
  end.

Fixpoint last_char (s : string) : option ascii :=
  match s with
  | EmptyString => None
  | String c EmptyString => Some c
  | String _ s' => last_char s'
  end.

(** A character that is absent or not white space. *)
Definition not_space (c : option ascii) : bool :=
  match c with
  | Some a => negb (is_space a)
  | None => true
  end.

End Text.

(** ** Data model *)

(** Python values that travel in keyword dictionaries. *)
Inductive value : Type :=
| VNone
| VBool (b : bool)
| VInt (n : Z)
| VStr (s : string).

(** A keyword dictionary ([**kwargs]). *)
Abbreviation Kwargs := (gmap string value).

(** One row of the replica catalog, with the keys the [list] command's
    formatter reads from it. *)
Record ReplicaRecord : Type := {
  database : string;
  table : string;
  zookeeper_path : string;
  replica_name : string;
  is_readonly : bool;
  absolute_delay : Z;
  queue_size : Z;
  active_replicas : Z;
  total_replicas : Z
}.

(** The two mutating operations. *)
Inductive Kind : Type := Restart | Restore.

(** A mutating request as it leaves the orchestrator: operation,
    identity of the table and the optional cluster annotation. *)
Record Call : Type := {
  kind : Kind;
  call_database : string;
  call_table : string;
  call_cluster : option string
}.

(** Exceptions.  [ClickhouseError] carries [e.response.text]; every other
    exception class (transport errors, [TypeError], ...) is a [PyError]. *)
Inductive exn : Type :=
| ClickhouseError (text : string)
| PyError (name : string).

Inductive result (A : Type) : Type :=
| Ok (a : A)
| Raise (e : exn).
Arguments Ok {A} a.
Arguments Raise {A} e.

(** What the [logging] module receives. *)
Inductive LogRecord : Type :=
| LogWarning (template : string) (arg : string)
| LogDryRun (c : Call).

(** Modelled from the spec: the click context is only used for the
    cluster name ([get_cluster_name], not among the sources); section 3
    describes it as read-only configuration threaded through one command. *)
Record Context : Type := { config_cluster_name : string }.

Definition get_cluster_name (ctx : Context) : string := config_cluster_name ctx.

(** The remote engine, seen through its two external interfaces: the
    catalog read and the mutating DDL request.  The engine is a state
    machine, so that an answer may depend on every earlier request. *)
Class RemoteEngine (E : Type) : Type := {
  query_replicas : E -> result (list ReplicaRecord);
  executeDDL : E -> Call -> E * result unit
}.

(** ** Selector (pattern matching) *)

Module Pattern.
Import Text.

(** SQL LIKE: [%] matches any run of characters, [_] exactly one. *)
Fixpoint like (p : string) : string -> bool :=
  match p with
  | EmptyString => fun v => match v with EmptyString => true | _ => false end
  | String c p' =>
      if Ascii.eqb c "%"%char then
        fix any (v : string) : bool :=
          like p' v ||
          match v with
          | EmptyString => false
          | String _ v' => any v'
          end
      else
        fun v =>
          match v with
          | EmptyString => false
          | String d v' => (Ascii.eqb c "_"%char || Ascii.eqb c d) && like p' v'
          end
  end.

(** The declarative reading of the same semantics. *)
Inductive Like : string -> string -> Prop :=
| Like_empty : Like EmptyString EmptyString
| Like_percent p skipped v :
    Like p v -> Like (String "%"%char p) (skipped ++ v)
| Like_underscore p d v :
    Like p v -> Like (String "_"%char p) (String d v)
| Like_char c p v :
    c <> "%"%char -> Like p v -> Like (String c p) (String c v).

(** Modelled from the spec: [matchOne] of section 4.1 (the query builder
    that turns a pattern into LIKE / IN is not among the sources).  A
    pattern with a comma is split on commas, each element is trimmed,
    and the candidate, trimmed as section 8 has it, is tested for exact
    membership; any other pattern is a glob. *)
Definition matchOne (v p : string) : bool :=
  if contains "," p then member (strip v) (map strip (split_comma p))
  else like p v.

(** Modelled from the spec: [matches] of section 4.1; an absent include
    matches everything, an absent exclude matches nothing. *)
Definition matches (include exclude : option string) (v : string) : bool :=
  from_option (matchOne v) true include &&
  negb (from_option (matchOne v) false exclude).

End Pattern.

(** Modelled from the spec: the FilterSpec of section 3, one include and
    one exclude pattern per dimension plus the read-only flag and limit. *)
Record FilterSpec : Type := {
  include_database : option string;
  exclude_database : option string;
  include_table : option string;
  exclude_table : option string;
  readOnlyOnly : bool;
  limit : option Z
}.

Definition kw_pattern (kwargs : Kwargs) (key : string) : option string :=
  match kwargs !! key with
  | Some (VStr p) => Some p
  | _ => None
  end.

Definition kw_flag (kwargs : Kwargs) (key : string) : bool :=
  match kwargs !! key with
  | Some (VBool b) => b
  | _ => false
  end.

Definition kw_int (kwargs : Kwargs) (key : string) : option Z :=
  match kwargs !! key with
  | Some (VInt n) => Some n
  | _ => None
  end.

(** Modelled from the spec: how the keyword arguments of
    [list_table_replicas] populate the FilterSpec. *)
Definition filter_of_kwargs (kwargs : Kwargs) : FilterSpec := {|
  include_database := kw_pattern kwargs "database_pattern";
  exclude_database := kw_pattern kwargs "exclude_database_pattern";
  include_table := kw_pattern kwargs "table_pattern";
  exclude_table := kw_pattern kwargs "exclude_table_pattern";
  readOnlyOnly := kw_flag kwargs "is_readonly";
  limit := kw_int kwargs "limit"
|}.

(** Modelled from the spec: the selection predicate of section 4.1.
    Dimensions combine with AND; [readOnlyOnly] additionally requires
    [is_readonly]. *)
Definition selects (f : FilterSpec) (r : ReplicaRecord) : bool :=
  Pattern.matches (include_database f) (exclude_database f) (database r) &&
  Pattern.matches (include_table f) (exclude_table f) (table r) &&
  (negb (readOnlyOnly f) || is_readonly r).

Definition apply_limit {A : Type} (n : option Z) (rows : list A) : list A :=
  match n with
  | Some k => take (Z.to_nat k) rows
  | None => rows
  end.

(** ** The observable world and the command monad *)

Section Commands.
Context {E : Type} `{RemoteEngine E}.

(** The remote engine together with what an observer of one command
    run can see: the catalog reads requested, the mutating calls that
    reached the engine, and the log. *)
Record World : Type := {
  engine : E;
  reads : list Kwargs;
  sent : list Call;
  log : list LogRecord
}.

Definition record_read (kwargs : Kwargs) (w : World) : World :=
  {| engine := engine w; reads := reads w ++ [kwargs];
     sent := sent w; log := log w |}.

Definition record_sent (c : Call) (e' : E) (w : World) : World :=
  {| engine := e'; reads := reads w;
     sent := sent w ++ [c]; log := log w |}.

Definition record_log (entry : LogRecord) (w : World) : World :=
  {| engine := engine w; reads := reads w;
     sent := sent w; log := log w ++ [entry] |}.

(** A command step: it may change the world and either returns or
    raises. *)
Definition M (A : Type) : Type := World -> World * result A.

Definition ret {A : Type} (a : A) : M A := fun w => (w, Ok a).

Definition raise {A : Type} (e : exn) : M A := fun w => (w, Raise e).

Definition bind {A B : Type} (m : M A) (k : A -> M B) : M B :=
  fun w =>
    match m w with
    | (w', Ok a) => k a w'
    | (w', Raise e) => (w', Raise e)
    end.

Notation "x <- m ;; k" := (bind m (fun x => k))
  (at level 100, m at next level, right associativity).
Notation "m ;; k" := (bind m (fun _ => k))
  (at level 100, right associativity).

(** [for x in xs: body(x)] *)
Fixpoint for_each {A : Type} (xs : list A) (body : A -> M unit) : M unit :=
  match xs with
  | [] => ret tt
  | x :: xs' => body x ;; for_each xs' body
  end.

(** [try: m  except ClickhouseError as e: handler(e.response.text)];
    any other exception passes through. *)
Definition try_except_ClickhouseError (m : M unit) (handler : string -> M unit)
  : M unit :=
  fun w =>
    match m w with
    | (w', Raise (ClickhouseError text)) => handler text w'
    | outcome => outcome
    end.

(** [logging.warning(template, arg)] *)
Definition logging_warning (template arg : string) : M unit :=
  fun w => (record_log (LogWarning template arg) w, Ok tt).

(** Modelled from the spec: the Mutating Action Client behind the
    Dry-Run Gate (sections 4.4 and 4.5; [table_replica.py] is not among
    the sources).  With [dry_run] the intended action is recorded and a
    synthetic success returned; otherwise the request goes to the
    engine, whose answer is the outcome. *)
Definition mutating_call (c : Call) (dry_run : bool) : M unit :=
  fun w =>
    if dry_run then (record_log (LogDryRun c) w, Ok tt)
    else
      let '(e', outcome) := executeDDL (engine w) c in
      (record_sent c e' w, outcome).

(** Modelled from the spec: [restart(database, table, cluster)]. *)
Definition restart_table_replica (ctx : Context) (database table : string)
    (cluster : option string) (dry_run : bool) : M unit :=
  mutating_call {| kind := Restart; call_database := database;
                   call_table := table; call_cluster := cluster |} dry_run.

(** Modelled from the spec: [restore(database, table, cluster)]. *)
Definition restore_table_replica (ctx : Context) (database table : string)
    (cluster : option string) (dry_run : bool) : M unit :=
  mutating_call {| kind := Restore; call_database := database;
                   call_table := table; call_cluster := cluster |} dry_run.

(** Modelled from the spec: the Replica Catalog Reader of section 4.2
    ([table_replica.py] is not among the sources).  One read of the
    catalog, never gated by dry-run; a failed read propagates; the rows
    come back in the engine's order, filtered by the Selector. *)
Definition list_table_replicas (ctx : Context) (kwargs : Kwargs)
  : M (list ReplicaRecord) :=
  fun w =>
    let w' := record_read kwargs w in
    match query_replicas (engine w) with
    | Raise e => (w', Raise e)
    | Ok rows =>
        let f := filter_of_kwargs kwargs in
        (w', Ok (apply_limit (limit f) (List.filter (selects f) rows)))
    end.

(** ** [replica restart] *)

(** [restart_replica_command(ctx, on_cluster, dry_run, **kwargs)] *)
Definition restart_replica_command (ctx : Context)
    (on_cluster dry_run : bool) (kwargs : Kwargs) : M unit :=
  let cluster := if on_cluster then Some (get_cluster_name ctx) else None in
  replicas <- list_table_replicas ctx kwargs ;;
  for_each replicas (fun replica =>
    restart_table_replica ctx (database replica) (table replica)
                          cluster dry_run).

(** ** [replica restore] *)

Definition dquote : string := String (ascii_of_nat 34) EmptyString.

Definition warning_retry : string :=
  "Failed to restore replica with error " ++ dquote ++ "{}" ++ dquote ++
  ", attempting to recover by restarting replica and retrying restore".

Definition warning_restart : string :=
  "Failed to restore replica with error " ++ dquote ++ "{}" ++ dquote ++
  ", attempting to recover by restarting replica".

(** The [except ClickhouseError as e] block of [restore_command], as a
    function of [msg = e.response.text]. *)
Definition restore_except (ctx : Context) (cluster : option string)
    (dry_run : bool) (replica : ReplicaRecord) (msg : string) : M unit :=
  if Text.contains "Replica has metadata in ZooKeeper" msg
     || Text.contains "NO_ZOOKEEPER" msg then
    logging_warning warning_retry msg ;;
    restart_table_replica ctx (database replica) (table replica)
                          cluster dry_run ;;
    restore_table_replica ctx (database replica) (table replica)
                          cluster dry_run
  else if Text.contains "Replica path is present" msg then
    logging_warning warning_restart msg ;;
    restart_table_replica ctx (database replica) (table replica)
                          cluster dry_run
  else
    raise (ClickhouseError msg).

(** The body of the [for replica in ro_replicas] loop. *)
Definition restore_iteration (ctx : Context) (cluster : option string)
    (dry_run : bool) (replica : ReplicaRecord) : M unit :=
  try_except_ClickhouseError
    (restore_table_replica ctx (database replica) (table replica)
                           cluster dry_run)
    (restore_except ctx cluster dry_run replica).

(** [restore_command(ctx, _all, on_cluster, dry_run, **kwargs)].  The
    call [list_table_replicas(ctx, is_readonly=True, **kwargs)] is a
    [TypeError] when [kwargs] already has the key. *)
Definition restore_command (ctx : Context)
    (_all on_cluster dry_run : bool) (kwargs : Kwargs) : M unit :=
  let cluster := if on_cluster then Some (get_cluster_name ctx) else None in
  ro_replicas <-
    match kwargs !! "is_readonly" with
    | Some _ => raise (PyError "TypeError")
    | None => list_table_replicas ctx (<["is_readonly" := VBool true]> kwargs)
    end ;;
  for_each ro_replicas (restore_iteration ctx cluster dry_run).

(** ** Command-line binding *)

(** The options both commands declare: the selection group, then
    [--on-cluster] and [--dry-run]. *)
Record CliOptions : Type := {
  opt_all : bool;
  opt_database : option string;
  opt_exclude_database : option string;
  opt_table : option string;
  opt_exclude_table : option string;
  opt_on_cluster : bool;
  opt_dry_run : bool
}.

Definition opt_value (o : option string) : value :=
  match o with
  | Some s => VStr s
  | None => VNone
  end.

(** The keyword dictionary the command callback is invoked with, keyed
    by the parameter names given in the [option] declarations. *)
Definition cli_params (o : CliOptions) : Kwargs :=
  <["_all" := VBool (opt_all o)]>
  (<["database_pattern" := opt_value (opt_database o)]>
  (<["exclude_database_pattern" := opt_value (opt_exclude_database o)]>
  (<["table_pattern" := opt_value (opt_table o)]>
  (<["exclude_table_pattern" := opt_value (opt_exclude_table o)]>
  (<["on_cluster" := VBool (opt_on_cluster o)]>
  (<["dry_run" := VBool (opt_dry_run o)]> ∅)))))).

(** Python keyword binding: the parameters named in the signature take
    their keys, [**kwargs] receives what is left. *)
Definition rest_kwargs (named : list string) (params : Kwargs) : Kwargs :=
  foldr delete params named.

Definition invoke_restart (ctx : Context) (params : Kwargs) : M unit :=
  restart_replica_command ctx
    (kw_flag params "on_cluster") (kw_flag params "dry_run")
    (rest_kwargs ["on_cluster"; "dry_run"] params).

Definition invoke_restore (ctx : Context) (params : Kwargs) : M unit :=
  restore_command ctx
    (kw_flag params "_all") (kw_flag params "on_cluster")
    (kw_flag params "dry_run")
    (rest_kwargs ["_all"; "on_cluster"; "dry_run"] params).

(** ** Vocabulary of the recovery state machine *)

Inductive FailureClass : Type :=
| RecoverableA | RecoverableB | Unclassified.

(** The class of a failed restore, read off the [if]/[elif]/[else]
    chain of [restore_except]. *)
Definition classify (msg : string) : FailureClass :=
  if Text.contains "Replica has metadata in ZooKeeper" msg
     || Text.contains "NO_ZOOKEEPER" msg then RecoverableA
  else if Text.contains "Replica path is present" msg then RecoverableB
  else Unclassified.

Definition restart_call (cluster : option string) (r : ReplicaRecord) : Call :=
  {| kind := Restart; call_database := database r; call_table := table r;
     call_cluster := cluster |}.

Definition restore_call (cluster : option string) (r : ReplicaRecord) : Call :=
  {| kind := Restore; call_database := database r; call_table := table r;
     call_cluster := cluster |}.

(** A call addresses the replica [(database, table)] of a record. *)
Definition targets (c : Call) (r : ReplicaRecord) : Prop :=
  call_database c = database r /\ call_table c = table r.

(** [needle] occurs in [s], character for character. *)
Definition occurs (needle s : string) : Prop :=
  exists before after, s = (before ++ needle ++ after)%string.

(** The calls a log records as intended (dry-run) actions. *)
Definition intended (entries : list LogRecord) : list Call :=
  omap (fun entry => match entry with
                     | LogDryRun c => Some c
                     | LogWarning _ _ => None
                     end) entries.

Definition record_logs (entries : list LogRecord) (w : World) : World :=
  {| engine := engine w; reads := reads w;
     sent := sent w; log := log w ++ entries |}.

(** From [w] to [w'] no catalog read was made, and every call that was
    sent or recorded as intended satisfies [P]. *)
Definition grows_by (P : Call -> Prop) (w w' : World) : Prop :=
  reads w' = reads w /\
  exists calls entries,
    sent w' = sent w ++ calls /\ log w' = log w ++ entries /\
    Forall P calls /\ Forall P (intended entries).

Definition set_all (b : bool) (o : CliOptions) : CliOptions :=
  {| opt_all := b;
     opt_database := opt_database o;
     opt_exclude_database := opt_exclude_database o;
     opt_table := opt_table o;
     opt_exclude_table := opt_exclude_table o;
     opt_on_cluster := opt_on_cluster o;
     opt_dry_run := opt_dry_run o |}.

End Commands.

(** ** A scripted engine

    A test double for the remote engine: it serves a fixed catalog and
    answers the mutating requests from a script, one answer per request,
    succeeding once the script is used up. *)

Record Scripted : Type := {
  catalog : result (list ReplicaRecord);
  script : list (result unit)
}.

#[export] Instance scripted_engine : RemoteEngine Scripted := {|
  query_replicas s := catalog s;
  executeDDL s c :=
    match script s with
    | [] => (s, Ok tt)
    | answer :: answers => ({| catalog := catalog s; script := answers |}, answer)
    end
|}.

Definition replica (db tbl : string) (ro : bool) : ReplicaRecord := {|
  database := db; table := tbl;
  zookeeper_path := "/clickhouse/tables/" ++ db ++ "/" ++ tbl;
  replica_name := "host1";
  is_readonly := ro; absolute_delay := 0; queue_size := 0;
  active_replicas := 1; total_replicas := 2
|}.

Definition events : ReplicaRecord := replica "shard1" "events" true.
Definition metrics : ReplicaRecord := replica "shard1" "metrics" true.
Definition users : ReplicaRecord := replica "shard2" "users" false.

Definition start (rows : list ReplicaRecord) (answers : list (result unit))
  : @World Scripted :=
  {| engine := {| catalog := Ok rows; script := answers |};
     reads := []; sent := []; log := [] |}.

Definition test_ctx : Context := {| config_cluster_name := "prod" |}.

(** Failure texts as the engine words them. *)
Definition zk_metadata_error : string :=
  "Code: 342. DB::Exception: Replica has metadata in ZooKeeper".
Definition no_zookeeper_error : string :=
  "Code: 225. DB::Exception: Cannot restore, NO_ZOOKEEPER".
Definition replica_path_error : string :=
  "Code: 253. DB::Exception: Replica path is present at the path".
Definition other_error : string := "some other error".

Definition clicks : ReplicaRecord := replica "shard2" "clicks" true.

(** A catalog with three read-only replicas and a writable one, and the
    world that serves it with a given script of answers. *)
Definition rows4 : list ReplicaRecord := [events; users; metrics; clicks].

Definition scenario (answers : list (result unit)) : @World Scripted :=
  start rows4 answers.

(** The engine of a scripted world after [n] answers were consumed. *)
Definition answered (n : nat) (rows : list ReplicaRecord)
    (answers : list (result unit)) : Scripted :=
  {| catalog := Ok rows; script := drop n answers |}.

From Stdlib Require Import Sorting.Sorted DecimalString DecimalZ.

(** * [monrun_checks_keeper/keeper_commands.py] *)

Module Keeper.

(** White space as [str.strip()] and the pattern [\s] see it, among the
    characters below 128: tab to carriage return, the four separators
    28 to 31, and the blank. *)
Definition py_space (c : ascii) : bool :=
  let n := nat_of_ascii c in
  Nat.eqb n 32 || (Nat.leb 9 n && Nat.leb n 13) || (Nat.leb 28 n && Nat.leb n 31).

Fixpoint lstrip (s : string) : string :=
  match s with
  | EmptyString => EmptyString
  | String c s' => if py_space c then lstrip s' else s
  end.

Fixpoint rstrip (s : string) : string :=
  match s with
  | EmptyString => EmptyString
  | String c s' =>
      match rstrip s' with
      | EmptyString => if py_space c then EmptyString else String c EmptyString
      | t => String c t
      end
  end.

(** [s.strip()] *)
Definition strip (s : string) : string := rstrip (lstrip s).

Fixpoint all_space (s : string) : bool :=
  match s with
  | EmptyString => true
  | String c s' => py_space c && all_space s'
  end.

(** A character that is absent or not white space. *)
Definition not_space (c : option ascii) : bool :=
  match c with
  | Some a => negb (py_space a)
  | None => true
  end.

(** [s.split(sep)] for a separator of one character. *)
Fixpoint split_char (sep : ascii) (s : string) : list string :=
  match s with
  | EmptyString => [EmptyString]
  | String c s' =>
      if Ascii.eqb c sep then EmptyString :: split_char sep s'
      else match split_char sep s' with
           | [] => [String c EmptyString]
           | piece :: pieces => String c piece :: pieces
           end
  end.

(** [re.split('\\s+', line, 1)]: cut at the first run of white space. *)
Fixpoint re_split_space (line : string) : list string :=
  match line with
  | EmptyString => [EmptyString]
  | String c rest =>
      if py_space c then [EmptyString; lstrip rest]
      else match re_split_space rest with
           | [key; val] => [String c key; val]
           | _ => [String c rest]
           end
  end.

(** [c in s] for a character. *)
Fixpoint has_char (c : ascii) (s : string) : bool :=
  match s with
  | EmptyString => false
  | String d s' => Ascii.eqb d c || has_char c s'
  end.

(** Some character of [s] is white space. *)
Fixpoint has_space (s : string) : bool :=
  match s with
  | EmptyString => false
  | String d s' => py_space d || has_space s'
  end.

(** What [keeper_mntr] stores: a key without white space and a value
    that does not begin with any. *)
Definition mntr_entry (key val : string) : Prop :=
  has_space key = false /\ not_space (Text.first_char val) = true.

(** [s.endswith(suffix)] *)
Fixpoint endswith (suffix s : string) : bool :=
  String.eqb suffix s ||
  match s with
  | EmptyString => false
  | String _ s' => endswith suffix s'
  end.

(** [os.path.join(root, name)] of [posixpath]. *)
Definition path_join (root name : string) : string :=
  if Text.startswith "/" name then name
  else if String.eqb root EmptyString || endswith "/" root then root ++ name
  else root ++ "/" ++ name.

Definition ZOOKEEPER_CFG_FILE : string := "/etc/zookeeper/conf/zoo.cfg".
Definition DEFAULT_ZOOKEEPER_DATA_DIR : string := "/var/lib/zookeeper".
Definition DEFAULT_ZOOKEEPER_DATA_LOG_DIR : string := "/var/log/zookeeper".

(** [Result(code, message)] *)
Record Result : Type := { code : Z; message : string }.

Inductive error : Type :=
| RuntimeError (text : string)
| KeyError (key : string)
| FileNotFoundError
| OtherError (text : string).

(** What [ClickhouseKeeperConfig.load()] gives; the class is not among
    the sources, its two attributes are taken as they are used. *)
Record KeeperConfig : Type := {
  port : option Z;
  snapshots_dir : string
}.

(** The files of the machine as the checks read them: the lines of
    [zoo.cfg] when the file exists, the keeper configuration when it can
    be loaded, and [os.walk(top)] as the directories under [top], each
    with the names of its files. *)
Record Host : Type := {
  zoo_cfg : option (list string);
  keeper_config : option KeeperConfig;
  os_walk : string -> list (string * list string)
}.

(** One line of [zoo.cfg] in the loop of [read_zookeeper_config]. *)
Definition config_line (config : gmap string string) (line : string)
  : gmap string string :=
  match split_char "="%char line with
  | key :: val :: _ => <[strip key := strip val]> config
  | _ => config
  end.

Definition read_zookeeper_config (host : Host) : gmap string string :=
  match zoo_cfg host with
  | None => ∅
  | Some lines => foldl config_line ∅ lines
  end.

Definition get_snapshot_files (host : Host) (snapshots_dir : string)
  : list string :=
  flat_map (fun '(root, files) =>
              map (path_join root) (List.filter (Text.startswith "snapshot") files))
           (os_walk host snapshots_dir).

(** [ClickhouseKeeperConfig.load().port or 2181], 2181 as well when the
    configuration file is not found. *)
Definition get_keeper_port (host : Host) : Z :=
  match keeper_config host with
  | Some cfg =>
      match port cfg with
      | Some p => if Z.eqb p 0 then 2181%Z else p
      | None => 2181%Z
      end
  | None => 2181%Z
  end.

(** The [files] of [check_snapshots]: under [dataDir] of [zoo.cfg] when
    that file exists, else under the keeper's snapshot directory, whose
    configuration may be missing. *)
Definition snapshot_files (host : Host) : error + list string :=
  match zoo_cfg host with
  | Some _ =>
      inr (get_snapshot_files host
             (default DEFAULT_ZOOKEEPER_DATA_DIR
                      (read_zookeeper_config host !! "dataDir")))
  | None =>
      match keeper_config host with
      | Some cfg => inr (get_snapshot_files host (snapshots_dir cfg))
      | None => inl FileNotFoundError
      end
  end.

Section Snapshots.
(** Creation times enter only through comparisons. *)
Context {T : Type} (getctime : string -> T) (leb : T -> T -> bool).

Fixpoint insert_reverse (f : string) (sorted : list string) : list string :=
  match sorted with
  | [] => [f]
  | g :: rest =>
      if leb (getctime g) (getctime f) then f :: g :: rest
      else g :: insert_reverse f rest
  end.

(** [sorted(files, key=os.path.getctime, reverse=True)]: the stable
    sort, largest key first, equal keys in their original order. *)
Definition sorted_reverse (files : list string) : list string :=
  foldr insert_reverse [] files.

Definition check_snapshots (host : Host) : error + Result :=
  match snapshot_files host with
  | inl e => inl e
  | inr files =>
      inr {| code := 0;
             message := match sorted_reverse files with
                        | latest :: _ => latest
                        | [] => "No (zoo)keeper snapshots done yet"
                        end |}
  end.

End Snapshots.

(** The two variables of the scan in [check_last_null_pointer_exc]. *)
Definition npe_line (state : string * option string) (line : string)
  : string * option string :=
  let '(prev_line, latest) := state in
  (line,
   if Text.contains "java.lang.NullPointerException" line
   then Some (strip (hd EmptyString (split_char "["%char prev_line)))
   else latest).

Definition npe_scan (stamp : string) (logs : list (list string))
  : string * option string :=
  foldl (fun state file => foldl npe_line state file) (stamp, None) logs.

(** [check_last_null_pointer_exc], given what
    [get_zookeeper_log_files_for_last_day()] found: the lines of each log
    file, in the order of the files, and [stamp], the formatted creation
    time of the first of them. *)
Definition check_last_null_pointer_exc (host : Host)
    (logs : list (list string)) (stamp : string) : Result :=
  match zoo_cfg host with
  | None => {| code := 0; message := "OK" |}
  | Some _ =>
      match logs with
      | [] => {| code := 0; message := "OK" |}
      | _ =>
          match snd (npe_scan stamp logs) with
          | Some (String c latest) => {| code := 1; message := String c latest |}
          | _ => {| code := 0; message := "OK" |}
          end
      end
  end.

(** The keeper's four-letter-word port: a request gets an answer or the
    socket fails. *)
Class KeeperServer (K : Type) : Type := {
  four_letter : K -> Z -> Z -> string -> K * (error + string)
}.

Section Mntr.
Context {K : Type} `{KeeperServer K}.

(** The server, the commands sent to it so far and its answers. *)
Record Session : Type := {
  server : K;
  asked : list string;
  heard : list (error + string)
}.

(** [keeper_command(command, timeout)] *)
Definition keeper_command (host : Host) (command : string) (timeout : Z)
    (s : Session) : Session * (error + string) :=
  let '(k', answer) := four_letter (server s) (get_keeper_port host)
                                   timeout command in
  ({| server := k'; asked := asked s ++ [command];
      heard := heard s ++ [answer] |}, answer).

(** One line of the answer in the loop of [keeper_mntr]. *)
Definition mntr_line (result : gmap string string) (line : string)
  : gmap string string :=
  match re_split_space line with
  | [key; val] => <[key := val]> result
  | _ => result
  end.

Definition mntr_response (result : gmap string string) (response : string)
  : gmap string string :=
  foldl mntr_line result (split_char (ascii_of_nat 10) response).

(** The [while True] loop of [keeper_mntr]; [remaining] is what is left
    of [retries] after [attempt] failures, and [result] is the dictionary
    created before the loop. *)
Fixpoint mntr_loop (host : Host) (timeout : Z) (remaining : nat)
    (result : gmap string string) (s : Session)
  : Session * (error + gmap string string) :=
  let '(s', answer) := keeper_command host "mntr" timeout s in
  let attempt :=
    match answer with
    | inl e => (result, Some e)
    | inr response =>
        let result' := mntr_response result response in
        if Nat.leb (size result') 1
        then (result', Some (RuntimeError ("Too short response: " ++ strip response)))
        else (result', None)
    end in
  match attempt with
  | (result', None) => (s', inr result')
  | (result', Some e) =>
      match remaining with
      | O => (s', inl e)
      | S remaining' => mntr_loop host timeout remaining' result' s'
      end
  end.

(** [keeper_mntr(ctx)], [obj] being [ctx.obj]. *)
Definition keeper_mntr (host : Host) (obj : gmap string Z) (s : Session)
  : Session * (error + gmap string string) :=
  mntr_loop host (default 3%Z (obj !! "timeout"))
            (Z.to_nat (default 3%Z (obj !! "retries"))) ∅ s.

(** [Result(0, keeper_mntr(ctx)[key])]: the commands [avg_latency],
    [min_latency], [max_latency], [queue], [descriptors] and [version]. *)
Definition mntr_command (key : string) (host : Host) (obj : gmap string Z)
    (s : Session) : Session * (error + Result) :=
  match keeper_mntr host obj s with
  | (s', inl e) => (s', inl e)
  | (s', inr result) =>
      (s', match result !! key with
           | Some val => inr {| code := 0; message := val |}
           | None => inl (KeyError key)
           end)
  end.

Definition avg_latency_command := mntr_command "zk_avg_latency".
Definition min_latency_command := mntr_command "zk_min_latency".
Definition max_latency_command := mntr_command "zk_max_latency".
Definition queue_command := mntr_command "zk_outstanding_requests".
Definition descriptors_command := mntr_command "zk_open_file_descriptor_count".
Definition get_version_command := mntr_command "zk_version".

(** The texts among a run of answers. *)
Definition texts (answers : list (error + string)) : list string :=
  omap (fun answer => match answer with
                      | inr text => Some text
                      | inl _ => None
                      end) answers.

End Mntr.

(** A keeper that answers from a script and fails once it is used up. *)
Record ScriptedKeeper : Type := { answers : list (error + string) }.

#[export] Instance scripted_keeper : KeeperServer ScriptedKeeper := {|
  four_letter k _ _ _ :=
    match answers k with
    | [] => (k, inl (OtherError "connection refused"))
    | answer :: rest => ({| answers := rest |}, answer)
    end
|}.

Definition bare_host : Host :=
  {| zoo_cfg := None; keeper_config := None; os_walk := fun _ => [] |}.

End Keeper.

(** * Query templates

    The queries of [chadmin/internal/process.py] are Jinja templates.  A
    template is kept as its lines, without their indentation; a line is
    literal text with [{{ name }}] holes, and [{% if %}] blocks choose
    between runs of lines.  Rendering gives the lines of the query. *)

Module Jinja.

Inductive piece : Type :=
| Lit (text : string)
| Var (name : string).

Inductive test : Type :=
| Truthy (name : string)
| Not (t : test)
| VersionGe (version : string).

#[warnings="-register-all"]
Inductive block : Type :=
| Line (pieces : list piece)
| If (t : test) (yes no : list block).

(** Python's [str(n)] for an integer. *)
Definition str_int (n : Z) : string := NilZero.string_of_int (Z.to_int n).

(** Truth of a template variable: undefined, [None], [False], [0] and
    the empty text are false. *)
Definition truthy (v : option value) : bool :=
  match v with
  | None | Some VNone => false
  | Some (VBool b) => b
  | Some (VInt n) => negb (Z.eqb n 0)
  | Some (VStr s) => negb (String.eqb s EmptyString)
  end.

(** What [{{ name }}] prints. *)
Definition shown (v : option value) : string :=
  match v with
  | None => EmptyString
  | Some VNone => "None"
  | Some (VBool true) => "True"
  | Some (VBool false) => "False"
  | Some (VInt n) => str_int n
  | Some (VStr s) => s
  end.

Section Render.
Context (version_ge : string -> bool) (env : Kwargs).

Fixpoint holds (t : test) : bool :=
  match t with
  | Truthy name => truthy (env !! name)
  | Not t' => negb (holds t')
  | VersionGe version => version_ge version
  end.

Definition render_piece (p : piece) : string :=
  match p with
  | Lit text => text
  | Var name => shown (env !! name)
  end.

Definition render_line (pieces : list piece) : string :=
  foldr (fun p rest => (render_piece p ++ rest)%string) EmptyString pieces.

Fixpoint render_block (b : block) : list string :=
  match b with
  | Line pieces => [render_line pieces]
  | If t yes no =>
      if holds t then flat_map render_block yes else flat_map render_block no
  end.

Definition render (template : list block) : list string :=
  flat_map render_block template.

End Render.

End Jinja.

(** * [chadmin/internal/process.py] and [chadmin/cli/process_group.py] *)

Module Process.
Import Jinja.

Definition quoted (s : string) : string := dquote ++ s ++ dquote.

(** A row of a JSON answer. *)
Abbreviation Row := (gmap string value).

Inductive error : Type :=
| ClickException (message : string)
| UsageError (message : string)
| QueryError (text : string).

(** The server behind [execute_query]: it knows its version and answers
    a rendered query with the rows of [data] or fails. *)
Class ProcessServer (S : Type) : Type := {
  version_ge : S -> string -> bool;
  run_query : S -> list string -> S * (error + list Row)
}.

(** [None] or a text, as a Python value. *)
Definition of_text (o : option string) : value :=
  match o with
  | Some s => VStr s
  | None => VNone
  end.

Definition of_int (o : option Z) : value :=
  match o with
  | Some n => VInt n
  | None => VNone
  end.

(** The query of [list_processes]: first its SELECT list. *)
Definition list_processes_select : list block := [
  Line [Lit "SELECT"];
  If (Truthy "cluster") [Line [Lit ("hostName() " ++ quoted "host" ++ ",")]] [];
  Line [Lit "query_id,"];
  Line [Lit "elapsed,"];
  Line [Lit "query,"];
  Line [Lit "is_cancelled,"];
  Line [Lit ("concat(toString(read_rows), ' rows / ', formatReadableSize(read_bytes)) "
             ++ quoted "read" ++ ",")];
  Line [Lit ("concat(toString(written_rows), ' rows / ', formatReadableSize(written_bytes)) "
             ++ quoted "written" ++ ",")];
  Line [Lit ("formatReadableSize(memory_usage) " ++ quoted "memory usage" ++ ",")];
  Line [Lit "user,"];
  Line [Lit "multiIf(empty(client_name),"];
  Line [Lit "http_user_agent,"];
  Line [Lit "concat(client_name, ' ',"];
  Line [Lit "toString(client_version_major), '.',"];
  Line [Lit "toString(client_version_minor), '.',"];
  If (Not (Truthy "verbose"))
     [Line [Lit ("toString(client_version_patch))) " ++ quoted "client")]]
     [Line [Lit ("toString(client_version_patch))) " ++ quoted "client" ++ ",")];
      If (VersionGe "21.8")
         [Line [Lit "ProfileEvents,"];
          Line [Lit "Settings"]]
         [Line [Lit "ProfileEvents.Names,"];
          Line [Lit "ProfileEvents.Values,"];
          Line [Lit "Settings.Names,"];
          Line [Lit "Settings.Values"]]]
].

(** Then its FROM, WHERE, ORDER BY and LIMIT. *)
Definition list_processes_filter : list block := [
  If (Truthy "cluster")
     [Line [Lit "FROM clusterAllReplicas("; Var "cluster"; Lit ", system.processes)"]]
     [Line [Lit "FROM system.processes"]];
  Line [Lit "WHERE 1"];
  If (Truthy "user") [Line [Lit "AND user = '"; Var "user"; Lit "'"]] [];
  If (Truthy "exclude_user")
     [Line [Lit "AND user != '"; Var "exclude_user"; Lit "'"]] [];
  If (Truthy "query_id")
     [Line [Lit "AND query_id = '"; Var "query_id"; Lit "'"]] [];
  If (Truthy "query_pattern")
     [Line [Lit "AND lower(query) LIKE lower('"; Var "query_pattern"; Lit "')"]] [];
  If (Not (Truthy "query_id"))
     [Line [Lit "ORDER BY "; Var "order_by"; Lit " DESC"]] [];
  If (Truthy "limit") [Line [Lit "LIMIT "; Var "limit"]] []
].

Definition list_processes_query : list block :=
  list_processes_select ++ list_processes_filter.

(** The query of [kill_process]. *)
Definition kill_process_query : list block := [
  Line [Lit "KILL QUERY"];
  Line [Lit "WHERE 1"];
  If (Truthy "user") [Line [Lit "AND user = '"; Var "user"; Lit "'"]] [];
  If (Truthy "exclude_user")
     [Line [Lit "AND user != '"; Var "exclude_user"; Lit "'"]] [];
  If (Truthy "query_id")
     [Line [Lit "AND query_id = '"; Var "query_id"; Lit "'"]] []
].

(** The query of [list_merges]: its SELECT list, then FROM and LIMIT. *)
Definition list_merges_select : list block := [
  Line [Lit "SELECT"];
  If (Truthy "cluster") [Line [Lit ("hostName() " ++ quoted "host" ++ ",")]] [];
  Line [Lit "database,"];
  Line [Lit "table,"];
  Line [Lit "elapsed,"];
  Line [Lit "progress,"];
  Line [Lit "is_mutation,"];
  If (VersionGe "21.3")
     [Line [Lit "merge_type,"];
      Line [Lit "merge_algorithm,"]] [];
  Line [Lit "partition_id,"];
  Line [Lit "num_parts,"];
  Line [Lit "source_part_names,"];
  Line [Lit "result_part_name,"];
  Line [Lit "source_part_paths,"];
  Line [Lit "result_part_path,"];
  Line [Lit "total_size_bytes_compressed,"];
  Line [Lit "total_size_marks,"];
  Line [Lit "bytes_read_uncompressed,"];
  Line [Lit "rows_read,"];
  Line [Lit "bytes_written_uncompressed,"];
  Line [Lit "rows_written,"];
  Line [Lit "columns_written,"];
  Line [Lit "memory_usage,"];
  Line [Lit "thread_id"]
].

Definition list_merges_filter : list block := [
  If (Truthy "cluster")
     [Line [Lit "FROM clusterAllReplicas("; Var "cluster"; Lit ", system.merges)"]]
     [Line [Lit "FROM system.merges"]];
  If (Truthy "limit") [Line [Lit "LIMIT "; Var "limit"]] []
].

Definition list_merges_query : list block :=
  list_merges_select ++ list_merges_filter.

(** The line a text argument adds to a WHERE clause: none when the
    argument is [None] or empty. *)
Definition condition (prefix suffix : string) (o : option string)
  : list string :=
  match o with
  | Some (String c s) => [(prefix ++ String c s ++ suffix)%string]
  | _ => []
  end.

(** The LIMIT line: none when the limit is [None] or [0]. *)
Definition limit_line (o : option Z) : list string :=
  match o with
  | Some n => if Z.eqb n 0 then [] else [("LIMIT " ++ str_int n)%string]
  | None => []
  end.

(** The FROM line. *)
Definition from_line (table : string) (cluster : option string) : string :=
  match cluster with
  | Some (String c s) =>
      ("FROM clusterAllReplicas(" ++ String c s ++ ", " ++ table ++ ")")%string
  | _ => ("FROM " ++ table)%string
  end.

Section Commands.
Context {S : Type} `{ProcessServer S}.

(** The server, the queries sent to it and what the commands handed to
    [print] and [print_response]. *)
Record State : Type := {
  server : S;
  queries : list (list string);
  printed : list (list Row)
}.

Definition Cmd (A : Type) : Type := State -> State * (error + A).

(** [execute_query(ctx, query, **kwargs)]: the template is rendered
    with the keyword arguments and the server's [version_ge], and sent. *)
Definition execute_query (query : list block) (kwargs : Kwargs) : Cmd (list Row) :=
  fun st =>
    let text := render (version_ge (server st)) kwargs query in
    let '(srv, answer) := run_query (server st) text in
    ({| server := srv; queries := queries st ++ [text]; printed := printed st |},
     answer).

(** [print(...)] and [print_response(ctx, ...)] *)
Definition print_rows (rows : list Row) : Cmd unit :=
  fun st =>
    ({| server := server st; queries := queries st;
        printed := printed st ++ [rows] |}, inr tt).

(** The arguments of [list_processes], with their defaults. *)
Record ListArgs : Type := {
  user : option string;
  exclude_user : option string;
  query_id : option string;
  query_pattern : option string;
  cluster : option string;
  limit : option Z;
  order_by : string;
  verbose : bool
}.

Definition list_defaults : ListArgs := {|
  user := None; exclude_user := None; query_id := None; query_pattern := None;
  cluster := None; limit := None; order_by := "elapsed"; verbose := false
|}.

(** The keyword arguments [list_processes] hands to [execute_query]. *)
Definition list_processes_env (args : ListArgs) : Kwargs :=
  <["user" := of_text (user args)]>
  (<["exclude_user" := of_text (exclude_user args)]>
  (<["query_id" := of_text (query_id args)]>
  (<["query_pattern" := of_text (query_pattern args)]>
  (<["cluster" := of_text (cluster args)]>
  (<["limit" := of_int (limit args)]>
  (<["verbose" := VBool (verbose args)]>
  (<["order_by" := VStr (order_by args)]> ∅))))))).

Definition list_processes (args : ListArgs) : Cmd (list Row) :=
  execute_query list_processes_query (list_processes_env args).

(** The arguments [get_process] calls [list_processes] with. *)
Definition get_process_args (id : string) : ListArgs := {|
  user := None; exclude_user := None; query_id := Some id;
  query_pattern := None; cluster := None; limit := None;
  order_by := "elapsed"; verbose := true
|}.

(** [get_process(ctx, query_id)] *)
Definition get_process (id : string) : Cmd Row :=
  fun st =>
    match list_processes (get_process_args id) st with
    | (st', inl e) => (st', inl e)
    | (st', inr []) =>
        (st', inl (ClickException ("Process " ++ id ++ " not found.")))
    | (st', inr (process :: _)) => (st', inr process)
    end.

(** The keyword arguments [kill_process] hands to [execute_query]. *)
Definition kill_process_env (id usr exclude : option string) : Kwargs :=
  <["query_id" := of_text id]>
  (<["user" := of_text usr]>
  (<["exclude_user" := of_text exclude]> ∅)).

(** [kill_process(ctx, query_id, user, exclude_user)] *)
Definition kill_process (id usr exclude : option string) : Cmd unit :=
  fun st =>
    match execute_query kill_process_query (kill_process_env id usr exclude) st with
    | (st', inl e) => (st', inl e)
    | (st', inr rows) => print_rows rows st'
    end.

(** [list_merges(ctx, cluster=None, limit=None)] *)
Definition list_merges (cluster : option string) (limit : option Z)
  : Cmd (list Row) :=
  execute_query list_merges_query
    (<["cluster" := of_text cluster]> (<["limit" := of_int limit]> ∅)).


(** Truth of an optional text argument, as [any] sees it. *)
Definition given (o : option string) : bool := truthy (Some (of_text o)).

(** [kill_process_command(ctx, query_id, all, user, exclude_user)] *)
Definition kill_process_command (id : option string) (all : bool)
    (usr exclude : option string) : Cmd unit :=
  if negb (given id || all || given usr || given exclude) then
    fun st =>
      (st, inl (UsageError
        "At least one of QUERY_ID, --all, --user and --exclude-user options must be specified."))
  else kill_process id usr exclude.

(** [get_process_command(ctx, query_id)] *)
Definition get_process_command (id : string) : Cmd unit :=
  fun st =>
    match get_process id st with
    | (st', inl e) => (st', inl e)
    | (st', inr process) => print_rows [process] st'
    end.

(** [list_processes_command(ctx, user, exclude_user, query, verbose,
    on_cluster, order_by, limit)] *)
Definition list_processes_command (ctx : Context)
    (usr exclude query : option string) (verbose on_cluster : bool)
    (order_by : string) (limit : option Z) : Cmd unit :=
  let cluster := if on_cluster then Some (get_cluster_name ctx) else None in
  fun st =>
    match list_processes
            {| user := usr; exclude_user := exclude; query_id := None;
               query_pattern := query; cluster := cluster; limit := limit;
               order_by := order_by; verbose := verbose |} st with
    | (st', inl e) => (st', inl e)
    | (st', inr processes) => print_rows processes st'
    end.

End Commands.

(** A server that answers every query with the same rows. *)
Record FixedServer : Type := { rows : list Row; recent : bool }.

#[export] Instance fixed_server : ProcessServer FixedServer := {|
  version_ge srv _ := recent srv;
  run_query srv _ := (srv, inr (rows srv))
|}.

End Process.

(** * The call traces of [replica restore] *)

(** What one pass of the restore loop may send for a replica: the
    restore alone, the restore and a restart, or these two and a second
    restore. *)
Definition iteration_calls (cluster : option string) (r : ReplicaRecord)
    (calls : list Call) : Prop :=
  calls = [restore_call cluster r]
  \/ calls = [restore_call cluster r; restart_call cluster r]
  \/ calls = [restore_call cluster r; restart_call cluster r;
              restore_call cluster r].

(** The cluster annotation the commands compute from [--on-cluster]. *)
Definition annotation (ctx : Context) (on_cluster : bool) : option string :=
  if on_cluster then Some (get_cluster_name ctx) else None.

(** * [replica list]: the table formatter *)

Module ReplicaList.
Import Jinja.

(** [_table_formatter(item)] of [list_command]: the ordered dictionary
    as the list of its items. *)
Definition _table_formatter (item : ReplicaRecord) : list (string * value) := [
  ("database", VStr (database item));
  ("table", VStr (table item));
  ("zookeeper_path", VStr (zookeeper_path item));
  ("replica_name", VStr (replica_name item));
  ("is_readonly", VBool (is_readonly item));
  ("absolute_delay", VInt (absolute_delay item));
  ("queue_size", VInt (queue_size item));
  ("active_replicas",
   VStr (str_int (active_replicas item) ++ " / " ++ str_int (total_replicas item)))
].


End ReplicaList.

(** * Sample inputs for the checks and commands *)

Module Samples.
Import Keeper Process.

Definition nl : string := String (ascii_of_nat 10) EmptyString.

(** A line as the iteration over a file yields it, with its line end. *)
Definition ln (text : string) : string := text ++ nl.

Definition zoo_lines : list string := [
  ln "# zookeeper";
  ln "tickTime=2000";
  ln "dataDir = /tmp/zk";
  ln "dataDir=/var/zk=2"
].

Definition zoo_host : Host := {|
  zoo_cfg := Some zoo_lines;
  keeper_config := None;
  os_walk := fun top =>
    if String.eqb top "/var/zk"
    then [("/var/zk", ["snapshot.1"; "log.1"; "snapshot.2"]);
          ("/var/zk/old", ["snapshot.0"])]
    else []
|}.

(** Creation times of the snapshots above. *)
Definition sample_ctime (path : string) : Z :=
  if String.eqb path "/var/zk/snapshot.1" then 10
  else if String.eqb path "/var/zk/snapshot.2" then 30
  else if String.eqb path "/var/zk/old/snapshot.0" then 30
  else 0.

Definition mntr_session (script : list (Keeper.error + string))
  : @Session ScriptedKeeper :=
  {| Keeper.server := {| answers := script |}; asked := []; heard := [] |}.

(** One line first, too short to pass; then two more. *)
Definition short_then_full : list (Keeper.error + string) := [
  inr "zk_version 3.8.0";
  inr ("zk_avg_latency 0" ++ nl ++ "zk_max_latency 12")%string
].

Definition mntr_seen : gmap string string :=
  <["zk_version" := "3.8.0"]>
  (<["zk_avg_latency" := "0"]>
  (<["zk_max_latency" := "12"]> ∅)).

Definition quiet_logs : list (list string) := [
  [ln "2024-01-01 10:00:00,001 [myid:1] - INFO started";
   ln "2024-01-01 10:00:01,002 [myid:1] - WARN slow fsync"]
].

Definition failing_logs : list (list string) := [
  [ln "2024-01-01 10:00:00,001 [myid:1] - INFO started";
   ln "2024-01-01 10:00:02,123 [myid:1] - ERROR unexpected"];
  [ln "java.lang.NullPointerException";
   ln "[stack] at org.apache.zookeeper.server"]
].

Definition process_row (id : string) : Row :=
  <["query_id" := VStr id]> (<["elapsed" := VInt 7]> ∅).

Definition one_process : @State FixedServer :=
  {| Process.server := {| Process.rows := [process_row "abc"]; recent := true |};
     queries := []; printed := [] |}.

End Samples.

(** Closes a [grows_by] goal once the calls and log entries added by the
    step are named. *)
Ltac grows_with calls entries :=
  split; [done |]; exists calls, entries; rewrite ?app_nil_r;
  repeat split; by repeat constructor.

(** * Properties *)

(** ** Text *)

Module TextFacts.
Import Text.

Lemma startswith_iff (prefix s : string) :
  startswith prefix s = true <-> exists rest, s = (prefix ++ rest)%string.
Proof.
  revert s. induction prefix as [|a prefix IH]; intros s; simpl.
  - split; [intros _; by exists s | done].
  - destruct s as [|b s].
    + split; [done | intros [rest Hrest]; discriminate].
    + rewrite andb_true_iff, Ascii.eqb_eq, IH. split.
      * intros [-> [rest ->]]. by exists rest.
      * intros [rest Hrest]. injection Hrest as -> ->. eauto.
Qed.

(** [needle in s] holds exactly when [needle] occurs in [s], character
    for character. *)
Lemma contains_iff (needle s : string) :
  contains needle s = true <->
  exists before after, s = (before ++ needle ++ after)%string.
Proof.
  induction s as [|c s IH]; simpl.
  - rewrite orb_false_r, startswith_iff. split.
    + intros [rest ->]. by exists EmptyString, rest.
    + intros [[|b before] [after Heq]]; [by exists after | discriminate].
  - rewrite orb_true_iff, startswith_iff, IH. split.
    + intros [[rest ->] | (before & after & ->)].
      * by exists EmptyString, rest.
      * by exists (String c before), after.
    + intros [[|b before] [after Heq]].
      * left. by exists after.
      * right. injection Heq as -> ->. eauto.
Qed.

Lemma member_iff (x : string) (items : list string) :
  member x items = true <-> In x items.
Proof.
  unfold member. rewrite existsb_exists. split.
  - intros (y & Hy & Heq). apply String.eqb_eq in Heq. by subst.
  - intros Hin. exists x. split; [done | apply String.eqb_refl].
Qed.

Lemma split_comma_nonempty (s : string) : split_comma s <> [].
Proof.
  destruct s as [|c s]; [done |]. cbn.
  destruct (Ascii.eqb c ","%char); [done |]. by destruct (split_comma s).
Qed.

(** Joining the pieces with commas gives the text back. *)
Lemma join_split_comma (s : string) : join_comma (split_comma s) = s.
Proof.
  induction s as [|c s IH]; [done |]. cbn [split_comma].
  destruct (Ascii.eqb c ","%char) eqn:Hc.
  - apply Ascii.eqb_eq in Hc as ->. pose proof (split_comma_nonempty s).
    cbn. destruct (split_comma s); [done |]. by rewrite IH.
  - pose proof (split_comma_nonempty s) as Hne.
    destruct (split_comma s) as [|item items]; [done |].
    rewrite <- IH. cbn. by destruct items.
Qed.

(** No piece holds a comma. *)
Lemma split_comma_pieces (s : string) :
  Forall (fun item => contains "," item = false) (split_comma s).
Proof.
  induction s as [|c s IH]; [by repeat constructor |]. cbn [split_comma].
  destruct (Ascii.eqb c ","%char) eqn:Hc; [by constructor |].
  pose proof (split_comma_nonempty s) as Hne.
  destruct (split_comma s) as [|item items]; [done |].
  inversion IH as [|? ? Hitem Hitems]; subst. constructor; [| done].
  cbn [contains startswith]. by rewrite Ascii.eqb_sym, Hc.
Qed.

Lemma contains_comma_cons (c : ascii) (s : string) :
  contains "," (String c s) = false ->
  Ascii.eqb c ","%char = false /\ contains "," s = false.
Proof.
  cbn [contains startswith]. rewrite Ascii.eqb_sym.
  destruct (Ascii.eqb c ","%char); [done |]. by destruct s.
Qed.

Lemma split_comma_prepend (item rest : string) :
  contains "," item = false ->
  split_comma (item ++ rest) =
  match split_comma rest with
  | [] => [(item ++ rest)%string]
  | piece :: pieces => (item ++ piece)%string :: pieces
  end.
Proof.
  pose proof (split_comma_nonempty rest) as Hne.
  induction item as [|c item IH]; intros Hitem.
  - change (EmptyString ++ rest)%string with rest.
    by destruct (split_comma rest).
  - apply contains_comma_cons in Hitem as [Hc Hitem].
    change (String c item ++ rest)%string with (String c (item ++ rest)).
    cbn [split_comma]. rewrite Hc, (IH Hitem).
    by destruct (split_comma rest).
Qed.

Lemma append_empty (s : string) : (s ++ EmptyString)%string = s.
Proof.
  induction s as [|c s IH]; [done |].
  change (String c s ++ EmptyString)%string with (String c (s ++ EmptyString)).
  by rewrite IH.
Qed.

(** The split is the only way to cut a text at its commas. *)
Lemma split_join_comma (items : list string) :
  items <> [] ->
  Forall (fun item => contains "," item = false) items ->
  split_comma (join_comma items) = items.
Proof.
  induction items as [|item items IH]; [done |]. intros _ Hitems.
  inversion Hitems as [|? ? Hitem Hrest]; subst.
  destruct items as [|next items].
  - cbn [join_comma]. rewrite <- (append_empty item) at 1.
    rewrite split_comma_prepend by done. cbn. by rewrite append_empty.
  - change (join_comma (item :: next :: items))
      with (item ++ String ","%char (join_comma (next :: items)))%string.
    rewrite split_comma_prepend by done.
    change (split_comma (String ","%char (join_comma (next :: items))))
      with (EmptyString :: split_comma (join_comma (next :: items))).
    by rewrite IH, append_empty.
Qed.

#[local] Arguments String.append : simpl nomatch.

Lemma lstrip_decompose (s : string) :
  exists blanks, s = (blanks ++ lstrip s)%string /\ all_space blanks = true.
Proof.
  induction s as [|c s (blanks & Hs & Hblanks)]; [by exists EmptyString |].
  cbn. destruct (is_space c) eqn:Hc.
  - exists (String c blanks). cbn. by rewrite Hc, <- Hs.
  - by exists EmptyString.
Qed.

Lemma lstrip_first (s : string) : not_space (first_char (lstrip s)) = true.
Proof.
  induction s as [|c s IH]; [done |]. cbn.
  destruct (is_space c) eqn:Hc; [done |]. cbn. by rewrite Hc.
Qed.

Lemma rstrip_decompose (s : string) :
  exists blanks, s = (rstrip s ++ blanks)%string /\ all_space blanks = true.
Proof.
  induction s as [|c s (blanks & Hs & Hblanks)]; [by exists EmptyString |].
  cbn. destruct (rstrip s) as [|d t] eqn:Ht.
  - destruct (is_space c) eqn:Hc.
    + exists (String c blanks). cbn. by rewrite Hc, Hs.
    + exists blanks. by rewrite Hs.
  - exists blanks. by rewrite Hs.
Qed.

Lemma rstrip_last (s : string) : not_space (last_char (rstrip s)) = true.
Proof.
  induction s as [|c s IH]; [done |]. cbn.
  destruct (rstrip s) as [|d t] eqn:Ht.
  - destruct (is_space c) eqn:Hc; [done |]. cbn. by rewrite Hc.
  - done.
Qed.

Lemma rstrip_first (s : string) :
  not_space (first_char s) = true -> not_space (first_char (rstrip s)) = true.
Proof.
  destruct s as [|c s]; [done |]. cbn. intros Hc.
  destruct (rstrip s); [| done].
  destruct (is_space c) eqn:Hsp; cbn in *; [done |]. by rewrite Hsp.
Qed.

(** [strip] removes white space at both ends and nothing else. *)
Lemma strip_spec (s : string) :
  (exists left right,
     s = (left ++ strip s ++ right)%string
     /\ all_space left = true /\ all_space right = true)
  /\ not_space (first_char (strip s)) = true
  /\ not_space (last_char (strip s)) = true.
Proof.
  unfold strip. split; [| split].
  - destruct (lstrip_decompose s) as (left & Hs & Hleft).
    destruct (rstrip_decompose (lstrip s)) as (right & Ht & Hright).
    exists left, right. by rewrite <- Ht.
  - apply rstrip_first, lstrip_first.
  - apply rstrip_last.
Qed.

End TextFacts.

(** ** Glob patterns *)

Module PatternFacts.
Import Text Pattern.

Lemma like_percent (p v : string) :
  like (String "%"%char p) v =
  like p v || match v with
              | EmptyString => false
              | String _ v' => like (String "%"%char p) v'
              end.
Proof. by destruct v. Qed.

Lemma like_other (c : ascii) (p v : string) :
  c <> "%"%char ->
  like (String c p) v =
  match v with
  | EmptyString => false
  | String d v' => (Ascii.eqb c "_"%char || Ascii.eqb c d) && like p v'
  end.
Proof.
  intros Hc. simpl. apply Ascii.eqb_neq in Hc. by rewrite Hc.
Qed.

Lemma like_sound (p v : string) : like p v = true -> Like p v.
Proof.
  revert v. induction p as [|c p IH]; intros v.
  - destruct v; [constructor | discriminate].
  - destruct (decide (c = "%"%char)) as [-> | Hc].
    + induction v as [|d v IHv]; rewrite like_percent.
      * rewrite orb_false_r. intros Hp.
        apply (Like_percent p EmptyString EmptyString), IH, Hp.
      * intros [Hp | Hv]%orb_true_iff.
        -- apply (Like_percent p EmptyString (String d v)), IH, Hp.
        -- specialize (IHv Hv). inversion IHv as [|? skipped w Hw| |]; subst.
           ++ apply (Like_percent p (String d skipped) w Hw).
           ++ done.
    + rewrite (like_other _ _ _ Hc). destruct v as [|d v]; [discriminate |].
      intros [Hhead Htail]%andb_true_iff. apply IH in Htail.
      apply orb_true_iff in Hhead as [->%Ascii.eqb_eq | ->%Ascii.eqb_eq].
      * by constructor.
      * by constructor.
Qed.

Lemma like_complete (p v : string) : Like p v -> like p v = true.
Proof.
  induction 1 as [|p skipped v _ IH|p d v _ IH|c p v Hc _ IH].
  - done.
  - induction skipped as [|d skipped IHs].
    + change (EmptyString ++ v)%string with v.
      by rewrite like_percent, IH.
    + change (String d skipped ++ v)%string with (String d (skipped ++ v)).
      rewrite like_percent, IHs. apply orb_true_r.
  - by rewrite like_other, IH.
  - by rewrite (like_other _ _ _ Hc), IH, Ascii.eqb_refl, orb_true_r.
Qed.

(** The executable matcher decides the declarative LIKE semantics. *)
Lemma like_iff (p v : string) : like p v = true <-> Like p v.
Proof. split; [apply like_sound | apply like_complete]. Qed.

End PatternFacts.

(** ** The monad and the gate *)

Section OrchestratorFacts.
Context {E : Type} `{RemoteEngine E}.
Implicit Types (w : @World E) (r : ReplicaRecord) (c : Call) (msg : string).

Lemma mutating_call_live c w e' outcome :
  executeDDL (engine w) c = (e', outcome) ->
  mutating_call c false w = (record_sent c e' w, outcome).
Proof. intros Hc. unfold mutating_call. by rewrite Hc. Qed.

Lemma mutating_call_dry c w :
  mutating_call c true w = (record_log (LogDryRun c) w, Ok tt).
Proof. done. Qed.

Lemma restore_table_replica_call ctx cluster dry_run r :
  restore_table_replica ctx (database r) (table r) cluster dry_run =
  mutating_call (restore_call cluster r) dry_run.
Proof. done. Qed.

Lemma restart_table_replica_call ctx cluster dry_run r :
  restart_table_replica ctx (database r) (table r) cluster dry_run =
  mutating_call (restart_call cluster r) dry_run.
Proof. done. Qed.

Lemma for_each_cons {A : Type} (x : A) xs (body : A -> M unit) w :
  for_each (x :: xs) body w =
  match body x w with
  | (w', Ok _) => for_each xs body w'
  | (w', Raise e) => (w', Raise e)
  end.
Proof. done. Qed.

Lemma for_each_app {A : Type} (xs ys : list A) (body : A -> M unit) w :
  for_each (xs ++ ys) body w =
  match for_each xs body w with
  | (w', Ok _) => for_each ys body w'
  | (w', Raise e) => (w', Raise e)
  end.
Proof.
  revert w. induction xs as [|x xs IH]; intros w; [done |].
  cbn [app]. rewrite !for_each_cons.
  destruct (body x w) as [w' [[]|e]]; [apply IH | done].
Qed.

(** *** The dispatch of the [except] block *)

Lemma restore_except_A ctx cluster dry_run r msg :
  classify msg = RecoverableA ->
  restore_except ctx cluster dry_run r msg =
  bind (logging_warning warning_retry msg) (fun _ =>
  bind (restart_table_replica ctx (database r) (table r) cluster dry_run)
       (fun _ =>
  restore_table_replica ctx (database r) (table r) cluster dry_run)).
Proof.
  unfold classify, restore_except.
  destruct (_ || _); [done |]. by destruct (Text.contains _ msg).
Qed.

Lemma restore_except_B ctx cluster dry_run r msg :
  classify msg = RecoverableB ->
  restore_except ctx cluster dry_run r msg =
  bind (logging_warning warning_restart msg) (fun _ =>
  restart_table_replica ctx (database r) (table r) cluster dry_run).
Proof.
  unfold classify, restore_except.
  destruct (_ || _); [done |]. by destruct (Text.contains _ msg).
Qed.

Lemma restore_except_unclassified ctx cluster dry_run r msg :
  classify msg = Unclassified ->
  restore_except ctx cluster dry_run r msg = raise (ClickhouseError msg).
Proof.
  unfold classify, restore_except.
  destruct (_ || _); [done |]. by destruct (Text.contains _ msg).
Qed.

(** *** One iteration of the restore loop against a live engine *)

Lemma restore_iteration_failed ctx cluster r w e1 msg :
  executeDDL (engine w) (restore_call cluster r)
    = (e1, Raise (ClickhouseError msg)) ->
  restore_iteration ctx cluster false r w =
  restore_except ctx cluster false r msg
                 (record_sent (restore_call cluster r) e1 w).
Proof.
  intros Hfail. unfold restore_iteration, try_except_ClickhouseError.
  by rewrite restore_table_replica_call, (mutating_call_live _ _ _ _ Hfail).
Qed.

Lemma restore_iteration_A ctx cluster r w e1 msg e2 restarted e3 retried :
  executeDDL (engine w) (restore_call cluster r)
    = (e1, Raise (ClickhouseError msg)) ->
  classify msg = RecoverableA ->
  executeDDL e1 (restart_call cluster r) = (e2, restarted) ->
  executeDDL e2 (restore_call cluster r) = (e3, retried) ->
  let w2 := record_sent (restart_call cluster r) e2
              (record_log (LogWarning warning_retry msg)
                 (record_sent (restore_call cluster r) e1 w)) in
  restore_iteration ctx cluster false r w =
  match restarted with
  | Ok _ => (record_sent (restore_call cluster r) e3 w2, retried)
  | Raise e => (w2, Raise e)
  end.
Proof.
  intros Hfail HA Hrestart Hretry w2.
  rewrite (restore_iteration_failed _ _ _ _ _ _ Hfail), restore_except_A by done.
  rewrite restart_table_replica_call, restore_table_replica_call.
  unfold bind, logging_warning.
  rewrite (mutating_call_live (restart_call cluster r) _ e2 restarted) by done.
  destruct restarted as [[]|e]; [| done].
  by rewrite (mutating_call_live (restore_call cluster r) _ e3 retried).
Qed.

Lemma restore_iteration_B ctx cluster r w e1 msg e2 restarted :
  executeDDL (engine w) (restore_call cluster r)
    = (e1, Raise (ClickhouseError msg)) ->
  classify msg = RecoverableB ->
  executeDDL e1 (restart_call cluster r) = (e2, restarted) ->
  restore_iteration ctx cluster false r w =
  (record_sent (restart_call cluster r) e2
     (record_log (LogWarning warning_restart msg)
        (record_sent (restore_call cluster r) e1 w)), restarted).
Proof.
  intros Hfail HB Hrestart.
  rewrite (restore_iteration_failed _ _ _ _ _ _ Hfail), restore_except_B by done.
  rewrite restart_table_replica_call. unfold bind, logging_warning.
  by rewrite (mutating_call_live (restart_call cluster r) _ e2 restarted).
Qed.

End OrchestratorFacts.

(** ** Restore: the three failure classes *)

Section RestoreLoop.
Context {E : Type} `{RemoteEngine E}.
Implicit Types (w : @World E) (r : ReplicaRecord) (msg : string).

(** C1 (amended): when the restore attempt on a replica fails with a
    RecoverableA message, the remediation is [restart(database, table,
    cluster)] followed, once that restart has returned, by exactly one
    [restore(database, table, cluster)]; the calls for the replica are
    restore (failed), restart, restore, in that order, and no further
    restore is issued.  A failing restart ends the remediation. *)
Theorem recoverableA_restart_then_one_restore
    ctx cluster r w e1 msg e2 restarted e3 retried :
  executeDDL (engine w) (restore_call cluster r)
    = (e1, Raise (ClickhouseError msg)) ->
  classify msg = RecoverableA ->
  executeDDL e1 (restart_call cluster r) = (e2, restarted) ->
  executeDDL e2 (restore_call cluster r) = (e3, retried) ->
  sent (restore_iteration ctx cluster false r w).1 =
    sent w ++ restore_call cluster r :: restart_call cluster r ::
      match restarted with
      | Ok _ => [restore_call cluster r]
      | Raise _ => []
      end
  /\ (restore_iteration ctx cluster false r w).2 =
       match restarted with
       | Ok _ => retried
       | Raise e => Raise e
       end
  /\ log (restore_iteration ctx cluster false r w).1 =
       log w ++ [LogWarning warning_retry msg].
Proof.
  intros Hfail HA Hrestart Hretry.
  rewrite (restore_iteration_A ctx cluster r w e1 msg e2 restarted e3 retried)
    by done.
  destruct restarted as [[]|e]; cbn; by rewrite <- !app_assoc.
Qed.

(** C3: when the restore attempt on a replica fails with a message of
    neither recoverable class, the failure reaches the caller unchanged
    and the run stops there: the only call made after the replicas
    already processed is the failed restore itself, whatever replicas
    follow in the sequence. *)
Theorem unclassified_failure_halts_run
    ctx cluster processed r rest w wd e1 msg :
  for_each processed (restore_iteration ctx cluster false) w = (wd, Ok tt) ->
  executeDDL (engine wd) (restore_call cluster r)
    = (e1, Raise (ClickhouseError msg)) ->
  classify msg = Unclassified ->
  for_each (processed ++ r :: rest) (restore_iteration ctx cluster false) w
    = (record_sent (restore_call cluster r) e1 wd,
       Raise (ClickhouseError msg)).
Proof.
  intros Hdone Hfail HU.
  rewrite for_each_app, Hdone, for_each_cons.
  by rewrite (restore_iteration_failed _ _ _ _ _ _ Hfail),
    restore_except_unclassified.
Qed.

(** C4: when the restore attempt on a replica fails with a RecoverableB
    message, the remediation is exactly one [restart(database, table,
    cluster)] and no further restore: the calls for the replica are the
    failed restore and that restart.  When the restart returns, the run
    goes on with the next replica; its failure is the run's. *)
Theorem recoverableB_single_restart
    ctx cluster r rest w e1 msg e2 restarted :
  executeDDL (engine w) (restore_call cluster r)
    = (e1, Raise (ClickhouseError msg)) ->
  classify msg = RecoverableB ->
  executeDDL e1 (restart_call cluster r) = (e2, restarted) ->
  let w2 := record_sent (restart_call cluster r) e2
              (record_log (LogWarning warning_restart msg)
                 (record_sent (restore_call cluster r) e1 w)) in
  restore_iteration ctx cluster false r w = (w2, restarted)
  /\ sent w2 = sent w ++ [restore_call cluster r; restart_call cluster r]
  /\ for_each (r :: rest) (restore_iteration ctx cluster false) w =
       match restarted with
       | Ok _ => for_each rest (restore_iteration ctx cluster false) w2
       | Raise e => (w2, Raise e)
       end.
Proof.
  intros Hfail HB Hrestart w2.
  pose proof (restore_iteration_B ctx cluster r w e1 msg e2 restarted
                Hfail HB Hrestart) as Hiter.
  split; [done |]. split.
  - cbn. by rewrite <- app_assoc.
  - rewrite for_each_cons, Hiter. by destruct restarted as [[]|e].
Qed.

End RestoreLoop.

Section Classification.
Context {E : Type} `{RemoteEngine E}.
Implicit Types (w : @World E) (r : ReplicaRecord) (msg : string).

Lemma classify_A_iff msg :
  classify msg = RecoverableA <->
  occurs "Replica has metadata in ZooKeeper" msg \/ occurs "NO_ZOOKEEPER" msg.
Proof.
  unfold classify, occurs.
  rewrite <- !TextFacts.contains_iff, <- orb_true_iff.
  destruct (_ || _); [done |].
  split; [| done]. by destruct (Text.contains _ msg).
Qed.

Lemma classify_B_iff msg :
  classify msg = RecoverableB <->
  ~ (occurs "Replica has metadata in ZooKeeper" msg \/ occurs "NO_ZOOKEEPER" msg)
  /\ occurs "Replica path is present" msg.
Proof.
  unfold classify, occurs.
  rewrite <- !TextFacts.contains_iff, <- orb_true_iff.
  destruct (_ || _).
  - split; [done | by intros [[] _]].
  - destruct (Text.contains _ msg); split; try done.
    + by intros [_ ?].
Qed.

(** C5: the class of a failed restore is decided by exact (hence
    case-sensitive) substring tests on the raw text, the RecoverableA
    needles first and the RecoverableB needle after them; a text with
    needles of both classes is RecoverableA, and the [except] block does
    what the class says. *)
Theorem classification_is_ordered ctx cluster dry_run r msg :
  (classify msg = RecoverableA <->
     occurs "Replica has metadata in ZooKeeper" msg \/ occurs "NO_ZOOKEEPER" msg)
  /\ (classify msg = RecoverableB <->
        ~ (occurs "Replica has metadata in ZooKeeper" msg
           \/ occurs "NO_ZOOKEEPER" msg)
        /\ occurs "Replica path is present" msg)
  /\ ((occurs "Replica has metadata in ZooKeeper" msg \/ occurs "NO_ZOOKEEPER" msg)
      /\ occurs "Replica path is present" msg ->
      classify msg = RecoverableA)
  /\ restore_except ctx cluster dry_run r msg =
       match classify msg with
       | RecoverableA =>
           bind (logging_warning warning_retry msg) (fun _ =>
           bind (restart_table_replica ctx (database r) (table r)
                                       cluster dry_run) (fun _ =>
           restore_table_replica ctx (database r) (table r) cluster dry_run))
       | RecoverableB =>
           bind (logging_warning warning_restart msg) (fun _ =>
           restart_table_replica ctx (database r) (table r) cluster dry_run)
       | Unclassified => raise (ClickhouseError msg)
       end
  /\ classify "no_zookeeper; replica path is present" = Unclassified.
Proof.
  split; [apply classify_A_iff |]. split; [apply classify_B_iff |].
  split; [intros [HA _]; by apply classify_A_iff |]. split; [| done].
  destruct (classify msg) eqn:Hclass.
  - by apply restore_except_A.
  - by apply restore_except_B.
  - by apply restore_except_unclassified.
Qed.

(** C2 (amended): after a RecoverableA or RecoverableB remediation all
    of whose calls return, the run goes on with the next replica.  A
    failure raised by a remediation call is not classified again,
    whatever its text: it reaches the caller as it is, and no call is
    made for any later replica. *)
Theorem remediation_outcome_decides_advance
    ctx cluster r rest w e1 msg e2 restarted e3 retried :
  executeDDL (engine w) (restore_call cluster r)
    = (e1, Raise (ClickhouseError msg)) ->
  classify msg <> Unclassified ->
  executeDDL e1 (restart_call cluster r) = (e2, restarted) ->
  executeDDL e2 (restore_call cluster r) = (e3, retried) ->
  let attempt := record_sent (restore_call cluster r) e1 w in
  let wA := record_sent (restart_call cluster r) e2
              (record_log (LogWarning warning_retry msg) attempt) in
  let wB := record_sent (restart_call cluster r) e2
              (record_log (LogWarning warning_restart msg) attempt) in
  let loop := for_each rest (restore_iteration ctx cluster false) in
  for_each (r :: rest) (restore_iteration ctx cluster false) w =
  match classify msg, restarted, retried with
  | RecoverableA, Ok _, Ok _ => loop (record_sent (restore_call cluster r) e3 wA)
  | RecoverableA, Ok _, Raise e => (record_sent (restore_call cluster r) e3 wA, Raise e)
  | RecoverableA, Raise e, _ => (wA, Raise e)
  | RecoverableB, Ok _, _ => loop wB
  | RecoverableB, Raise e, _ => (wB, Raise e)
  | Unclassified, _, _ => (attempt, Raise (ClickhouseError msg))
  end.
Proof.
  intros Hfail Hclass Hrestart Hretry attempt wA wB loop.
  rewrite for_each_cons. destruct (classify msg) eqn:Hmsg; [| | done].
  - rewrite (restore_iteration_A ctx cluster r w e1 msg e2 restarted e3 retried)
      by done.
    by destruct restarted as [[]|e], retried as [[]|e'].
  - rewrite (restore_iteration_B ctx cluster r w e1 msg e2 restarted) by done.
    by destruct restarted as [[]|e].
Qed.

End Classification.

(** ** The restore scenarios on the scripted engine *)

(** A failure text with a needle of each class. *)
Lemma both_needles_scenario :
  classify "Code: 225. NO_ZOOKEEPER (Replica path is present)" = RecoverableA.
Proof.
  apply (proj1 (proj2 (proj2
           (@classification_is_ordered Scripted scripted_engine
              test_ctx None false events
              "Code: 225. NO_ZOOKEEPER (Replica path is present)")))).
  split.
  - right. by exists "Code: 225. ", " (Replica path is present)".
  - by exists "Code: 225. NO_ZOOKEEPER (", ")".
Defined.

Lemma recoverableA_scenario :
  classify zk_metadata_error = RecoverableA
  /\ sent (restore_iteration test_ctx None false events
             (scenario [Raise (ClickhouseError zk_metadata_error)])).1
     = [restore_call None events; restart_call None events;
        restore_call None events].
Proof.
  split; [reflexivity |].
  exact (proj1 (@recoverableA_restart_then_one_restore Scripted scripted_engine
                  test_ctx None events
                  (scenario [Raise (ClickhouseError zk_metadata_error)])
                  (answered 1 rows4 [Raise (ClickhouseError zk_metadata_error)])
                  zk_metadata_error
                  (answered 2 rows4 [Raise (ClickhouseError zk_metadata_error)])
                  (Ok tt)
                  (answered 3 rows4 [Raise (ClickhouseError zk_metadata_error)])
                  (Ok tt)
                  eq_refl eq_refl eq_refl eq_refl)).
Defined.

(** The three-call remediation (restart, restore, restore) is not what
    the code issues: after the failed attempt it sends one restart and
    one restore, although every later request succeeds. *)
Lemma recoverableA_not_two_restores :
  (executeDDL (engine (scenario [Raise (ClickhouseError no_zookeeper_error)]))
              (restore_call None events)).2
    = Raise (ClickhouseError no_zookeeper_error)
  /\ classify no_zookeeper_error = RecoverableA
  /\ sent (restore_iteration test_ctx None false events
             (scenario [Raise (ClickhouseError no_zookeeper_error)])).1
     = [restore_call None events; restart_call None events;
        restore_call None events]
  /\ drop 1 (sent (restore_iteration test_ctx None false events
               (scenario [Raise (ClickhouseError no_zookeeper_error)])).1)
     <> [restart_call None events; restore_call None events;
         restore_call None events].
Proof. repeat split; [reflexivity .. | discriminate]. Qed.

Lemma unclassified_scenario :
  classify other_error = Unclassified
  /\ for_each ([events] ++ metrics :: [clicks])
       (restore_iteration test_ctx None false)
       (scenario [Ok tt; Raise (ClickhouseError other_error)])
     = ({| engine := answered 2 rows4 [];
           reads := [];
           sent := [restore_call None events; restore_call None metrics];
           log := [] |},
        Raise (ClickhouseError other_error)).
Proof.
  split; [reflexivity |].
  rewrite (@unclassified_failure_halts_run Scripted scripted_engine test_ctx None [events] metrics [clicks]
             (scenario [Ok tt; Raise (ClickhouseError other_error)])
             (record_sent (restore_call None events)
                (answered 1 rows4 [Ok tt; Raise (ClickhouseError other_error)])
                (scenario [Ok tt; Raise (ClickhouseError other_error)]))
             (answered 2 rows4 [Ok tt; Raise (ClickhouseError other_error)])
             other_error);
    vm_compute; reflexivity.
Defined.

Lemma recoverableB_scenario :
  classify replica_path_error = RecoverableB
  /\ sent (for_each [events; metrics] (restore_iteration test_ctx None false)
             (scenario [Raise (ClickhouseError replica_path_error)])).1
     = [restore_call None events; restart_call None events;
        restore_call None metrics].
Proof.
  split; [reflexivity |].
  pose proof (@recoverableB_single_restart Scripted scripted_engine test_ctx None events [metrics]
                (scenario [Raise (ClickhouseError replica_path_error)])
                (answered 1 rows4 [Raise (ClickhouseError replica_path_error)])
                replica_path_error
                (answered 2 rows4 [Raise (ClickhouseError replica_path_error)])
                (Ok tt)
                ltac:(vm_compute; reflexivity) ltac:(vm_compute; reflexivity)
                ltac:(vm_compute; reflexivity)) as Hrun.
  cbv zeta in Hrun. destruct Hrun as (_ & _ & ->).
  vm_compute; reflexivity.
Defined.

Lemma remediation_scenario :
  classify zk_metadata_error <> Unclassified
  /\ for_each [events; metrics] (restore_iteration test_ctx None false)
       (scenario [Raise (ClickhouseError zk_metadata_error); Ok tt;
                  Raise (ClickhouseError replica_path_error)])
     = ({| engine := answered 3 rows4 [];
           reads := [];
           sent := [restore_call None events; restart_call None events;
                    restore_call None events];
           log := [LogWarning warning_retry zk_metadata_error] |},
        Raise (ClickhouseError replica_path_error)).
Proof.
  split; [discriminate |].
  rewrite (@remediation_outcome_decides_advance Scripted scripted_engine test_ctx None events [metrics]
             (scenario [Raise (ClickhouseError zk_metadata_error); Ok tt;
                        Raise (ClickhouseError replica_path_error)])
             (answered 1 rows4 [Raise (ClickhouseError zk_metadata_error); Ok tt;
                                Raise (ClickhouseError replica_path_error)])
             zk_metadata_error
             (answered 2 rows4 [Raise (ClickhouseError zk_metadata_error); Ok tt;
                                Raise (ClickhouseError replica_path_error)])
             (Ok tt)
             (answered 3 rows4 [])
             (Raise (ClickhouseError replica_path_error)));
    [vm_compute; reflexivity | vm_compute; reflexivity | discriminate
    | vm_compute; reflexivity ..].
Defined.

(** A run of the whole command in which the retry of the RecoverableA
    remediation fails: the failure is what the caller gets, and the next
    read-only replicas receive no call at all. *)
Lemma failed_remediation_is_surfaced :
  (restore_command test_ctx false false false ∅
     (scenario [Raise (ClickhouseError zk_metadata_error); Ok tt;
                Raise (ClickhouseError replica_path_error)])).2
    = Raise (ClickhouseError replica_path_error)
  /\ sent (restore_command test_ctx false false false ∅
             (scenario [Raise (ClickhouseError zk_metadata_error); Ok tt;
                        Raise (ClickhouseError replica_path_error)])).1
     = [restore_call None events; restart_call None events;
        restore_call None events]
  /\ (list_table_replicas test_ctx (<["is_readonly" := VBool true]> ∅)
        (scenario [])).2
     = Ok [events; metrics; clicks].
Proof. repeat split; vm_compute; reflexivity. Qed.

(** ** Which replicas a run can touch *)

Section Frames.
Context {E : Type} `{RemoteEngine E}.
Implicit Types (w : @World E) (r : ReplicaRecord) (c : Call) (P : Call -> Prop).

Lemma grows_by_refl P w : grows_by P w w.
Proof. grows_with (@nil Call) (@nil LogRecord). Qed.

Lemma grows_by_trans P w1 w2 w3 :
  grows_by P w1 w2 -> grows_by P w2 w3 -> grows_by P w1 w3.
Proof.
  intros [Hr1 (cs1 & ls1 & Hs1 & Hl1 & Hc1 & Hi1)]
         [Hr2 (cs2 & ls2 & Hs2 & Hl2 & Hc2 & Hi2)].
  split; [congruence |]. exists (cs1 ++ cs2), (ls1 ++ ls2).
  rewrite Hs2, Hs1, Hl2, Hl1, <- !app_assoc. repeat split.
  - by apply Forall_app.
  - unfold intended in *. rewrite omap_app. by apply Forall_app.
Qed.

Lemma grows_by_weaken P Q w w' :
  (forall c, P c -> Q c) -> grows_by P w w' -> grows_by Q w w'.
Proof.
  intros HPQ [Hr (cs & ls & Hs & Hl & Hc & Hi)].
  split; [done |]. exists cs, ls. repeat split; try done.
  - by apply (Forall_impl P).
  - by apply (Forall_impl P).
Qed.

Lemma mutating_call_grows P c dry_run w :
  P c -> grows_by P w (mutating_call c dry_run w).1.
Proof.
  intros HP. unfold mutating_call. destruct dry_run.
  - grows_with (@nil Call) [LogDryRun c].
  - destruct (executeDDL (engine w) c) as [e' outcome].
    grows_with [c] (@nil LogRecord).
Qed.

Lemma logging_warning_grows P template arg w :
  grows_by P w (logging_warning template arg w).1.
Proof. grows_with (@nil Call) [LogWarning template arg]. Qed.

Lemma bind_grows {A B : Type} P (m : M A) (k : A -> M B) w :
  grows_by P w (m w).1 ->
  (forall a w', grows_by P w' (k a w').1) ->
  grows_by P w (bind m k w).1.
Proof.
  intros Hm Hk. unfold bind. destruct (m w) as [w' [a|e]]; [| done].
  eapply grows_by_trans; [apply Hm | apply Hk].
Qed.

Lemma restore_except_grows ctx cluster dry_run r msg w :
  grows_by (fun c => targets c r) w (restore_except ctx cluster dry_run r msg w).1.
Proof.
  unfold restore_except.
  destruct (_ || _); [| destruct (Text.contains _ msg)].
  - apply bind_grows; [apply logging_warning_grows | intros _ w1].
    apply bind_grows; [| intros _ w2]; by apply mutating_call_grows.
  - apply bind_grows; [apply logging_warning_grows | intros _ w1].
    by apply mutating_call_grows.
  - apply grows_by_refl.
Qed.

Lemma restore_iteration_grows ctx cluster dry_run r w :
  grows_by (fun c => targets c r) w (restore_iteration ctx cluster dry_run r w).1.
Proof.
  unfold restore_iteration, try_except_ClickhouseError.
  pose proof (mutating_call_grows (fun c => targets c r)
                (restore_call cluster r) dry_run w) as Hcall.
  rewrite restore_table_replica_call.
  destruct (mutating_call _ dry_run w) as [w1 [[]|[text|name]]]; try by apply Hcall.
  eapply grows_by_trans; [by apply Hcall | apply restore_except_grows].
Qed.

Lemma for_each_grows {A : Type} (Q : A -> Call -> Prop) (body : A -> M unit)
    (xs : list A) w :
  (forall x w', In x xs -> grows_by (Q x) w' (body x w').1) ->
  grows_by (fun c => exists x, In x xs /\ Q x c) w (for_each xs body w).1.
Proof.
  revert w. induction xs as [|x xs IH]; intros w Hbody.
  - apply grows_by_refl.
  - rewrite for_each_cons.
    assert (grows_by (fun c => exists y, In y (x :: xs) /\ Q y c) w (body x w).1)
      as Hhead.
    { eapply grows_by_weaken; [| apply Hbody; by left].
      intros c Hc. exists x. split; [by left | done]. }
    destruct (body x w) as [w' [[]|e]]; [| done].
    eapply grows_by_trans; [apply Hhead |].
    eapply grows_by_weaken; [| apply IH].
    + intros c (y & Hy & Hc). exists y. split; [by right | done].
    + intros y w'' Hy. apply Hbody. by right.
Qed.

End Frames.

(** ** Restore: only read-only replicas are candidates *)

Section Selection.
Context {E : Type} `{RemoteEngine E}.
Implicit Types (w : @World E) (r : ReplicaRecord) (kwargs : Kwargs).

Lemma filter_of_kwargs_readonly kwargs :
  kwargs !! "is_readonly" = None ->
  filter_of_kwargs (<["is_readonly" := VBool true]> kwargs) =
  {| include_database := include_database (filter_of_kwargs kwargs);
     exclude_database := exclude_database (filter_of_kwargs kwargs);
     include_table := include_table (filter_of_kwargs kwargs);
     exclude_table := exclude_table (filter_of_kwargs kwargs);
     readOnlyOnly := true;
     limit := limit (filter_of_kwargs kwargs) |}
  /\ readOnlyOnly (filter_of_kwargs kwargs) = false.
Proof.
  intros Hnone. unfold filter_of_kwargs, kw_pattern, kw_flag, kw_int. cbn.
  rewrite lookup_insert_eq, !lookup_insert_ne, Hnone by done. done.
Qed.

Lemma selects_readonly kwargs r :
  kwargs !! "is_readonly" = None ->
  selects (filter_of_kwargs (<["is_readonly" := VBool true]> kwargs)) r =
  selects (filter_of_kwargs kwargs) r && is_readonly r.
Proof.
  intros Hnone.
  destruct (filter_of_kwargs_readonly kwargs Hnone) as [Hf Hflag].
  unfold selects. rewrite Hf, Hflag. cbn. by rewrite andb_true_r.
Qed.

(** C6: the restore command's candidates are exactly the read-only
    replicas among those of the catalog that match the filter, in the
    catalog's order; every call it sends or records as intended
    addresses one of them. *)
Theorem restore_candidates_are_readonly
    ctx (_all on_cluster dry_run : bool) kwargs w rows :
  kwargs !! "is_readonly" = None ->
  kwargs !! "limit" = None ->
  query_replicas (engine w) = Ok rows ->
  let cluster := if on_cluster then Some (get_cluster_name ctx) else None in
  let candidates :=
    List.filter (fun r => selects (filter_of_kwargs kwargs) r && is_readonly r)
                rows in
  let w0 := record_read (<["is_readonly" := VBool true]> kwargs) w in
  restore_command ctx _all on_cluster dry_run kwargs w =
    for_each candidates (restore_iteration ctx cluster dry_run) w0
  /\ grows_by (fun c => exists r, In r rows
                        /\ selects (filter_of_kwargs kwargs) r = true
                        /\ is_readonly r = true /\ targets c r)
       w0 (restore_command ctx _all on_cluster dry_run kwargs w).1.
Proof.
  intros Hnone Hlimit Hrows cluster candidates w0.
  assert (restore_command ctx _all on_cluster dry_run kwargs w =
          for_each candidates (restore_iteration ctx cluster dry_run) w0) as Hrun.
  { unfold restore_command, bind, list_table_replicas. rewrite Hnone, Hrows.
    destruct (filter_of_kwargs_readonly kwargs Hnone) as [Hf _].
    rewrite Hf at 1. cbn [limit]. unfold filter_of_kwargs at 1, kw_int.
    cbn [limit]. rewrite Hlimit. cbn [apply_limit].
    f_equal. apply filter_ext. intros r. by apply selects_readonly. }
  split; [done |]. rewrite Hrun.
  eapply grows_by_weaken;
    [| apply (for_each_grows (fun r c => targets c r)); intros r w' _;
       apply restore_iteration_grows].
  intros c (r & Hin & Htarget). apply filter_In in Hin as [Hin Hsel].
  apply andb_true_iff in Hsel as [Hsel Hro]. by exists r.
Qed.

End Selection.

Lemma restore_candidates_scenario :
  (<["table_pattern" := VStr "%s"]> ∅ : Kwargs) !! "is_readonly" = None
  /\ List.filter (selects (filter_of_kwargs (<["table_pattern" := VStr "%s"]> ∅)))
       rows4 = [events; users; metrics; clicks]
  /\ sent (restore_command test_ctx false false false
             (<["table_pattern" := VStr "%s"]> ∅) (scenario [])).1
     = [restore_call None events; restore_call None metrics;
        restore_call None clicks].
Proof.
  assert ((<["table_pattern" := VStr "%s"]> ∅ : Kwargs) !! "is_readonly" = None)
    as Hflag by reflexivity.
  assert ((<["table_pattern" := VStr "%s"]> ∅ : Kwargs) !! "limit" = None)
    as Hlimit by reflexivity.
  split; [exact Hflag |]. split; [vm_compute; reflexivity |].
  rewrite (proj1 (@restore_candidates_are_readonly Scripted scripted_engine
             test_ctx false false false (<["table_pattern" := VStr "%s"]> ∅)
             (scenario []) rows4 Hflag Hlimit eq_refl)).
  vm_compute; reflexivity.
Defined.

(** ** The dry-run gate *)

Section DryRun.
Context {E : Type} `{RemoteEngine E}.
Implicit Types (w : @World E) (r : ReplicaRecord) (kwargs : Kwargs).

Lemma record_logs_nil w : record_logs [] w = w.
Proof. destruct w. unfold record_logs. cbn. by rewrite app_nil_r. Qed.

Lemma record_logs_cons entry entries w :
  record_logs entries (record_log entry w) = record_logs (entry :: entries) w.
Proof. unfold record_logs, record_log. cbn. by rewrite <- app_assoc. Qed.

Lemma for_each_dry_restore ctx cluster rs w :
  for_each rs (restore_iteration ctx cluster true) w =
  (record_logs (map (fun r => LogDryRun (restore_call cluster r)) rs) w, Ok tt).
Proof.
  revert w. induction rs as [|r rs IH]; intros w.
  - by rewrite record_logs_nil.
  - rewrite for_each_cons. cbn [map]. rewrite <- record_logs_cons, <- IH. done.
Qed.

Lemma for_each_dry_restart ctx cluster rs w :
  for_each rs (fun r => restart_table_replica ctx (database r) (table r)
                                              cluster true) w =
  (record_logs (map (fun r => LogDryRun (restart_call cluster r)) rs) w, Ok tt).
Proof.
  revert w. induction rs as [|r rs IH]; intros w.
  - by rewrite record_logs_nil.
  - rewrite for_each_cons. cbn [map]. rewrite <- record_logs_cons, <- IH. done.
Qed.

Lemma for_each_reads {A : Type} (body : A -> M unit) (xs : list A) w :
  (forall x w', reads (body x w').1 = reads w') ->
  reads (for_each xs body w).1 = reads w.
Proof.
  intros Hbody. revert w. induction xs as [|x xs IH]; intros w; [done |].
  rewrite for_each_cons. specialize (Hbody x w).
  destruct (body x w) as [w' [[]|e]]; [| done]. by rewrite IH.
Qed.

Lemma restart_command_reads ctx on_cluster dry_run kwargs w :
  reads (restart_replica_command ctx on_cluster dry_run kwargs w).1
  = reads w ++ [kwargs].
Proof.
  unfold restart_replica_command, bind, list_table_replicas.
  destruct (query_replicas (engine w)) as [rows|e]; [| done].
  rewrite for_each_reads; [done |]. intros r w'.
  apply (mutating_call_grows (fun _ => True)). done.
Qed.

Lemma restore_command_reads ctx _all on_cluster dry_run kwargs w :
  kwargs !! "is_readonly" = None ->
  reads (restore_command ctx _all on_cluster dry_run kwargs w).1
  = reads w ++ [<["is_readonly" := VBool true]> kwargs].
Proof.
  intros Hnone. unfold restore_command, bind, list_table_replicas.
  rewrite Hnone. destruct (query_replicas (engine w)) as [rows|e]; [| done].
  rewrite for_each_reads; [done |]. intros r w'.
  apply restore_iteration_grows.
Qed.

(** C7: with the dry-run flag every restart / restore request stops at
    the gate: the intended call (operation, database and table, cluster
    annotation) is recorded in the log and reported as a success, the
    engine is left as it was and receives no mutating call, while the
    catalog read is issued whatever the flag says. *)
Theorem dry_run_reaches_no_engine ctx (_all on_cluster : bool) kwargs w :
  let cluster := if on_cluster then Some (get_cluster_name ctx) else None in
  (forall c, mutating_call c true w = (record_log (LogDryRun c) w, Ok tt))
  /\ restore_command ctx _all on_cluster true kwargs w =
       bind (match kwargs !! "is_readonly" with
             | Some _ => raise (PyError "TypeError")
             | None => list_table_replicas ctx (<["is_readonly" := VBool true]> kwargs)
             end)
            (fun selected w0 =>
               (record_logs
                  (map (fun r => LogDryRun (restore_call cluster r)) selected) w0,
                Ok tt)) w
  /\ restart_replica_command ctx on_cluster true kwargs w =
       bind (list_table_replicas ctx kwargs)
            (fun selected w0 =>
               (record_logs
                  (map (fun r => LogDryRun (restart_call cluster r)) selected) w0,
                Ok tt)) w
  /\ engine (restore_command ctx _all on_cluster true kwargs w).1 = engine w
  /\ sent (restore_command ctx _all on_cluster true kwargs w).1 = sent w
  /\ engine (restart_replica_command ctx on_cluster true kwargs w).1 = engine w
  /\ sent (restart_replica_command ctx on_cluster true kwargs w).1 = sent w
  /\ (forall dry_run,
        reads (restart_replica_command ctx on_cluster dry_run kwargs w).1
        = reads w ++ [kwargs])
  /\ (forall dry_run,
        kwargs !! "is_readonly" = None ->
        reads (restore_command ctx _all on_cluster dry_run kwargs w).1
        = reads w ++ [<["is_readonly" := VBool true]> kwargs]).
Proof.
  intros cluster.
  assert (restore_command ctx _all on_cluster true kwargs w =
            bind (match kwargs !! "is_readonly" with
                  | Some _ => raise (PyError "TypeError")
                  | None => list_table_replicas ctx
                              (<["is_readonly" := VBool true]> kwargs)
                  end)
                 (fun selected w0 =>
                    (record_logs
                       (map (fun r => LogDryRun (restore_call cluster r)) selected)
                       w0, Ok tt)) w) as Hrestore.
  { unfold restore_command, bind.
    destruct (kwargs !! "is_readonly") as [v|]; [done |].
    destruct (list_table_replicas ctx _ w) as [w0 [selected|e]]; [| done].
    apply for_each_dry_restore. }
  assert (restart_replica_command ctx on_cluster true kwargs w =
            bind (list_table_replicas ctx kwargs)
                 (fun selected w0 =>
                    (record_logs
                       (map (fun r => LogDryRun (restart_call cluster r)) selected)
                       w0, Ok tt)) w) as Hrestart.
  { unfold restart_replica_command, bind.
    destruct (list_table_replicas ctx kwargs w) as [w0 [selected|e]]; [| done].
    apply for_each_dry_restart. }
  split; [done |]. split; [done |]. split; [done |].
  rewrite Hrestore, Hrestart. unfold bind, list_table_replicas, raise.
  repeat split.
  - destruct (kwargs !! "is_readonly"); [done |].
    by destruct (query_replicas (engine w)).
  - destruct (kwargs !! "is_readonly"); [done |].
    by destruct (query_replicas (engine w)).
  - by destruct (query_replicas (engine w)).
  - by destruct (query_replicas (engine w)).
  - intros dry_run. apply restart_command_reads.
  - intros dry_run. apply restore_command_reads.
Qed.

End DryRun.

(** One read-only replica selected, [--dry-run] set: the engine gets no
    call, the log gets one intended [restore]. *)
Lemma dry_run_scenario :
  restore_command test_ctx false true true (<["table_pattern" := VStr "events"]> ∅)
    (scenario [])
  = ({| engine := engine (scenario []);
        reads := [<["is_readonly" := VBool true]>
                    (<["table_pattern" := VStr "events"]> ∅)];
        sent := [];
        log := [LogDryRun (restore_call (Some "prod") events)] |}, Ok tt).
Proof.
  rewrite (proj1 (proj2 (@dry_run_reaches_no_engine Scripted scripted_engine
             test_ctx false true (<["table_pattern" := VStr "events"]> ∅)
             (scenario [])))).
  vm_compute; reflexivity.
Defined.

(** ** [replica restart] *)

Section RestartOnly.
Context {E : Type} `{RemoteEngine E}.
Implicit Types (w : @World E) (r : ReplicaRecord) (kwargs : Kwargs).

Lemma restart_loop_sent ctx cluster rs w w' :
  for_each rs (fun r => restart_table_replica ctx (database r) (table r)
                                              cluster false) w = (w', Ok tt) ->
  sent w' = sent w ++ map (restart_call cluster) rs.
Proof.
  revert w. induction rs as [|r rs IH]; intros w.
  - intros [= <-]. by rewrite app_nil_r.
  - rewrite for_each_cons, restart_table_replica_call.
    unfold mutating_call.
    destruct (executeDDL (engine w) (restart_call cluster r)) as [e' [[]|err]];
      [| done].
    intros Hrest. apply IH in Hrest. rewrite Hrest. cbn.
    by rewrite <- app_assoc.
Qed.

(** C8: the restart command loops over what the catalog read returns for
    the keyword arguments as given (no read-only requirement is added),
    sends one restart per replica in order, and stops at the first
    restart that fails: that failure, whatever its text, is the
    command's outcome, and the replicas after it receive nothing. *)
Theorem restart_only_is_fail_fast ctx (on_cluster : bool) kwargs w rows :
  query_replicas (engine w) = Ok rows ->
  let cluster := if on_cluster then Some (get_cluster_name ctx) else None in
  let selected :=
    apply_limit (kw_int kwargs "limit")
                (List.filter (selects (filter_of_kwargs kwargs)) rows) in
  let body := fun r =>
    restart_table_replica ctx (database r) (table r) cluster false in
  let w0 := record_read kwargs w in
  restart_replica_command ctx on_cluster false kwargs w = for_each selected body w0
  /\ (kwargs !! "is_readonly" = None ->
      forall r, selects (filter_of_kwargs kwargs) r =
                Pattern.matches (kw_pattern kwargs "database_pattern")
                                (kw_pattern kwargs "exclude_database_pattern")
                                (database r)
                && Pattern.matches (kw_pattern kwargs "table_pattern")
                                   (kw_pattern kwargs "exclude_table_pattern")
                                   (table r))
  /\ (forall w', for_each selected body w0 = (w', Ok tt) ->
                 sent w' = sent w ++ map (restart_call cluster) selected)
  /\ (forall processed r rest wd e_r err,
        selected = processed ++ r :: rest ->
        for_each processed body w0 = (wd, Ok tt) ->
        executeDDL (engine wd) (restart_call cluster r) = (e_r, Raise err) ->
        for_each selected body w0
          = (record_sent (restart_call cluster r) e_r wd, Raise err)
        /\ sent (record_sent (restart_call cluster r) e_r wd)
           = sent w ++ map (restart_call cluster) (processed ++ [r])).
Proof.
  intros Hrows cluster selected body w0.
  split; [| split; [| split]].
  - unfold restart_replica_command, bind, list_table_replicas.
    by rewrite Hrows.
  - intros Hnone r. unfold selects, filter_of_kwargs, kw_flag. cbn.
    rewrite Hnone. cbn. by rewrite andb_true_r.
  - intros w' Hall. by apply restart_loop_sent in Hall.
  - intros processed r rest wd e_r err Hsplit Hprocessed Hfail. split.
    + rewrite Hsplit, for_each_app, Hprocessed, for_each_cons.
      unfold body at 1. rewrite restart_table_replica_call.
      by rewrite (mutating_call_live _ _ _ _ Hfail).
    + apply restart_loop_sent in Hprocessed. cbn.
      rewrite Hprocessed, map_app. by rewrite <- app_assoc.
Qed.

End RestartOnly.

(** The second restart fails with a text that the restore flow would
    have classified: the restart command stops there all the same.  The
    writable replica [users] was selected like the others. *)
Lemma restart_scenario :
  query_replicas (engine (scenario [Ok tt; Raise (ClickhouseError zk_metadata_error)]))
    = Ok rows4
  /\ restart_replica_command test_ctx false false ∅
       (scenario [Ok tt; Raise (ClickhouseError zk_metadata_error)])
     = ({| engine := answered 2 rows4 [];
           reads := [∅];
           sent := [restart_call None events; restart_call None users];
           log := [] |},
        Raise (ClickhouseError zk_metadata_error)).
Proof.
  split; [reflexivity |].
  pose proof (@restart_only_is_fail_fast Scripted scripted_engine
                test_ctx false ∅
                (scenario [Ok tt; Raise (ClickhouseError zk_metadata_error)])
                rows4 eq_refl) as Hrun.
  cbv zeta in Hrun. destruct Hrun as (-> & _ & _ & Hfail).
  destruct (Hfail [events] users [metrics; clicks]
              (record_sent (restart_call None events)
                 (answered 1 rows4 [Ok tt; Raise (ClickhouseError zk_metadata_error)])
                 (record_read ∅
                    (scenario [Ok tt; Raise (ClickhouseError zk_metadata_error)])))
              (answered 2 rows4 [])
              (ClickhouseError zk_metadata_error)) as [-> _];
    vm_compute; reflexivity.
Defined.

(** ** The [--all] flag *)

Section AllFlag.
Context {E : Type} `{RemoteEngine E}.
Implicit Types (w : @World E) (o : CliOptions).

Lemma restore_kwargs_without_all o b :
  rest_kwargs ["_all"; "on_cluster"; "dry_run"] (cli_params (set_all b o))
  = rest_kwargs ["_all"; "on_cluster"; "dry_run"] (cli_params o).
Proof.
  unfold rest_kwargs, cli_params. cbn [foldr set_all opt_all opt_database
    opt_exclude_database opt_table opt_exclude_table opt_on_cluster opt_dry_run].
  rewrite !(delete_insert_ne _ _ "_all") by done.
  by rewrite !delete_insert_eq.
Qed.

Lemma restore_kwargs_keys o :
  rest_kwargs ["_all"; "on_cluster"; "dry_run"] (cli_params o) !! "_all" = None
  /\ rest_kwargs ["_all"; "on_cluster"; "dry_run"] (cli_params o) !! "is_readonly"
     = None.
Proof.
  unfold rest_kwargs, cli_params. cbn [foldr]. split.
  - apply lookup_delete_eq.
  - by rewrite !lookup_delete_ne, !lookup_insert_ne by done.
Qed.

Lemma restart_kwargs_all o :
  rest_kwargs ["on_cluster"; "dry_run"] (cli_params o) !! "_all"
  = Some (VBool (opt_all o)).
Proof.
  unfold rest_kwargs, cli_params. cbn [foldr].
  by rewrite !lookup_delete_ne, lookup_insert_eq by done.
Qed.

(** C10: in the restore command the [--all] flag is bound to [_all] and
    goes nowhere: the run is the same whatever the flag, and the catalog
    read it requests carries no [_all] key.  The restart command leaves
    the flag among the keyword arguments it hands to the catalog read. *)
Theorem all_flag_ignored_by_restore ctx o w b :
  invoke_restore ctx (cli_params (set_all b o)) w
  = invoke_restore ctx (cli_params o) w
  /\ (forall a1 a2 on_cluster dry_run kwargs,
        restore_command ctx a1 on_cluster dry_run kwargs w
        = restore_command ctx a2 on_cluster dry_run kwargs w)
  /\ (exists requested,
        reads (invoke_restore ctx (cli_params o) w).1 = reads w ++ [requested]
        /\ requested !! "_all" = None
        /\ requested !! "is_readonly" = Some (VBool true))
  /\ (exists requested,
        reads (invoke_restart ctx (cli_params o) w).1 = reads w ++ [requested]
        /\ requested !! "_all" = Some (VBool (opt_all o))
        /\ requested !! "is_readonly" = None).
Proof.
  split; [| split; [| split]].
  - unfold invoke_restore. rewrite restore_kwargs_without_all.
    unfold restore_command. f_equal.
  - done.
  - destruct (restore_kwargs_keys o) as [Hall Hro].
    eexists. split; [| split].
    + unfold invoke_restore. by apply restore_command_reads.
    + by rewrite lookup_insert_ne.
    + apply lookup_insert_eq.
  - eexists. split; [| split].
    + unfold invoke_restart. apply restart_command_reads.
    + apply restart_kwargs_all.
    + unfold rest_kwargs, cli_params. cbn [foldr].
      by rewrite !lookup_delete_ne, !lookup_insert_ne by done.
Qed.

End AllFlag.

(** [replica restore --all] and [replica restore] run alike. *)
Lemma all_flag_scenario :
  invoke_restore test_ctx
    (cli_params {| opt_all := true; opt_database := Some "shard1";
                   opt_exclude_database := None; opt_table := None;
                   opt_exclude_table := None;
                   opt_on_cluster := false; opt_dry_run := false |})
    (scenario [])
  = invoke_restore test_ctx
      (cli_params {| opt_all := false; opt_database := Some "shard1";
                     opt_exclude_database := None; opt_table := None;
                     opt_exclude_table := None;
                     opt_on_cluster := false; opt_dry_run := false |})
      (scenario []).
Proof.
  exact (proj1 (@all_flag_ignored_by_restore Scripted scripted_engine test_ctx
                  {| opt_all := false; opt_database := Some "shard1";
                     opt_exclude_database := None; opt_table := None;
                     opt_exclude_table := None;
                     opt_on_cluster := false; opt_dry_run := false |}
                  (scenario []) true)).
Defined.

(** ** The Selector's [matchOne] *)

(** C9: a pattern that holds a comma is a list pattern: the candidate
    matches exactly when, trimmed, it is one of the comma-separated
    elements of the pattern, each trimmed.  A pattern without a comma is
    a LIKE glob: [%] stands for any run of characters and [_] for exactly
    one.  The elements are given by what they are: the pieces, none with
    a comma in it, that joined by commas make up the pattern. *)
Theorem matchOne_semantics (v p : string) (items : list string) :
  items <> [] ->
  Forall (fun item => Text.contains "," item = false) items ->
  Text.join_comma items = p ->
  (Text.contains "," p = true <-> occurs "," p)
  /\ (Pattern.matchOne v p = true <->
      if Text.contains "," p
      then In (Text.strip v) (map Text.strip items)
      else Pattern.Like p v).
Proof.
  intros Hne Hitems <-. split; [apply TextFacts.contains_iff |].
  unfold Pattern.matchOne. destruct (Text.contains "," _).
  - by rewrite TextFacts.split_join_comma, TextFacts.member_iff.
  - apply PatternFacts.like_iff.
Qed.

Lemma matchOne_list_scenario :
  Text.join_comma ["events"; " metrics "] = "events, metrics "
  /\ Pattern.matchOne "metrics" "events, metrics " = true
  /\ Pattern.matchOne " events" "events, metrics " = true
  /\ Pattern.matchOne "users" "events, metrics " = false.
Proof.
  split; [reflexivity |]. split; [| split; reflexivity].
  apply (proj2 (matchOne_semantics "metrics" "events, metrics "
                  ["events"; " metrics "]
                  ltac:(discriminate) ltac:(by repeat constructor) eq_refl)).
  right. by left.
Defined.

(** Globs on the catalog's names. *)
Lemma matchOne_glob_examples :
  Pattern.matchOne "events" "ev%" = true
  /\ Pattern.matchOne "events" "event_" = true
  /\ Pattern.matchOne "events" "event" = false
  /\ Pattern.matchOne "events" "%" = true
  /\ Pattern.matchOne "events" "_" = false.
Proof. repeat split; reflexivity. Qed.

(** * The keeper checks *)

Module KeeperFacts.
Import Keeper.

#[local] Arguments String.append : simpl nomatch.

(** ** Splitting and trimming *)

Lemma split_char_nonempty (sep : ascii) (s : string) : split_char sep s <> [].
Proof.
  destruct s as [|c s]; [done |]. cbn.
  destruct (Ascii.eqb c sep); [done |]. by destruct (split_char sep s).
Qed.

Lemma split_char_plain (sep : ascii) (s : string) :
  has_char sep s = false -> split_char sep s = [s].
Proof.
  induction s as [|c s IH]; [done |]. cbn.
  destruct (Ascii.eqb c sep); [done |]. cbn. intros Hs. by rewrite IH.
Qed.

Lemma split_char_cut (sep : ascii) (a b : string) :
  has_char sep a = false ->
  split_char sep (a ++ String sep b) = a :: split_char sep b.
Proof.
  induction a as [|c a IH]; cbn.
  - by rewrite Ascii.eqb_refl.
  - destruct (Ascii.eqb c sep); [done |]. cbn. intros Ha. by rewrite IH.
Qed.

Lemma py_lstrip_decompose (s : string) :
  exists blanks, s = (blanks ++ lstrip s)%string /\ all_space blanks = true.
Proof.
  induction s as [|c s (blanks & Hs & Hblanks)]; [by exists EmptyString |].
  cbn. destruct (py_space c) eqn:Hc.
  - exists (String c blanks). cbn. by rewrite Hc, <- Hs.
  - by exists EmptyString.
Qed.

Lemma py_lstrip_first (s : string) : not_space (Text.first_char (lstrip s)) = true.
Proof.
  induction s as [|c s IH]; [done |]. cbn.
  destruct (py_space c) eqn:Hc; [done |]. cbn. by rewrite Hc.
Qed.

Lemma py_rstrip_last (s : string) : not_space (Text.last_char (rstrip s)) = true.
Proof.
  induction s as [|c s IH]; [done |]. cbn.
  destruct (rstrip s) as [|d t] eqn:Ht.
  - destruct (py_space c) eqn:Hc; [done |]. cbn. by rewrite Hc.
  - done.
Qed.

Lemma py_rstrip_first (s : string) :
  not_space (Text.first_char s) = true ->
  not_space (Text.first_char (rstrip s)) = true.
Proof.
  destruct s as [|c s]; [done |]. cbn. intros Hc.
  destruct (rstrip s); [| done].
  destruct (py_space c) eqn:Hsp; cbn in *; [done |]. by rewrite Hsp.
Qed.

Lemma lstrip_fixed (s : string) :
  not_space (Text.first_char s) = true -> lstrip s = s.
Proof. destruct s as [|c s]; [done |]. cbn. by destruct (py_space c). Qed.

Lemma rstrip_fixed (s : string) :
  not_space (Text.last_char s) = true -> rstrip s = s.
Proof.
  induction s as [|c s IH]; [done |]. destruct s as [|d s].
  - cbn. by destruct (py_space c).
  - intros Hlast. specialize (IH Hlast).
    change (rstrip (String c (String d s)))
      with (match rstrip (String d s) with
            | EmptyString => if py_space c then EmptyString else String c EmptyString
            | t => String c t
            end).
    by rewrite IH.
Qed.

(** Trimming a trimmed text changes nothing. *)
Lemma strip_strip (s : string) : strip (strip s) = strip s.
Proof.
  unfold strip at 1.
  rewrite lstrip_fixed by apply py_rstrip_first, py_lstrip_first.
  apply rstrip_fixed, py_rstrip_last.
Qed.

(** ** [read_zookeeper_config] *)

Lemma read_config_snoc (config : gmap string string) lines line :
  foldl config_line config (lines ++ [line])
  = config_line (foldl config_line config lines) line.
Proof. by rewrite foldl_app. Qed.

Lemma config_line_other config line key :
  (forall k v rest, split_char "="%char line = k :: v :: rest -> strip k <> key) ->
  config_line config line !! key = config !! key.
Proof.
  intros Hother. unfold config_line.
  destruct (split_char "="%char line) as [|k [|v rest]]; [done .. |].
  rewrite lookup_insert_ne; [done |]. by apply (Hother k v rest).
Qed.

Lemma read_config_others config lines key :
  (forall line k v rest, In line lines ->
     split_char "="%char line = k :: v :: rest -> strip k <> key) ->
  foldl config_line config lines !! key = config !! key.
Proof.
  revert config. induction lines as [|line lines IH]; intros config Hother; [done |].
  cbn [foldl]. rewrite IH.
  - apply config_line_other. intros k v rest. apply Hother. by left.
  - intros l k v rest Hin. apply Hother. by right.
Qed.




(** ** [keeper_mntr] *)

(** [re.split] with [maxsplit=1] either finds no white space and leaves
    the line whole, or cuts out the first run of it. *)
Lemma re_split_space_cases (line : string) :
  (has_space line = false /\ re_split_space line = [line])
  \/ exists key blanks val,
       line = (key ++ blanks ++ val)%string
       /\ has_space key = false
       /\ blanks <> EmptyString /\ all_space blanks = true
       /\ not_space (Text.first_char val) = true
       /\ re_split_space line = [key; val].
Proof.
  induction line as [|c rest IH]; [by left |].
  cbn [re_split_space has_space]. destruct (py_space c) eqn:Hc.
  - right. destruct (py_lstrip_decompose rest) as (blanks & Hrest & Hblanks).
    exists EmptyString, (String c blanks), (lstrip rest).
    repeat split; try done.
    + cbn. by rewrite <- Hrest.
    + cbn. by rewrite Hc.
    + apply py_lstrip_first.
  - destruct IH as [[Hnone ->] | (key & blanks & val & -> & Hkey & Hne & Hblanks & Hval & ->)].
    + left. by destruct rest.
    + right. exists (String c key), blanks, val. repeat split; try done.
      cbn. by rewrite Hc.
Qed.

Section MntrFacts.
Context {K : Type} `{KeeperServer K}.
Implicit Types (s : @Session K) (result : gmap string string).

Lemma mntr_line_entries result line :
  map_Forall mntr_entry result -> map_Forall mntr_entry (mntr_line result line).
Proof.
  intros Hresult. unfold mntr_line.
  destruct (re_split_space_cases line)
    as [[_ ->] | (key & blanks & val & _ & Hkey & _ & _ & Hval & ->)]; [done |].
  by apply map_Forall_insert_2.
Qed.

Lemma mntr_response_entries result response :
  map_Forall mntr_entry result ->
  map_Forall mntr_entry (mntr_response result response).
Proof.
  unfold mntr_response. revert result.
  induction (split_char (ascii_of_nat 10) response) as [|line lines IH];
    intros result Hresult; [done |].
  cbn [foldl]. by apply IH, mntr_line_entries.
Qed.

Lemma mntr_responses_entries result (responses : list string) :
  map_Forall mntr_entry result ->
  map_Forall mntr_entry (foldl mntr_response result responses).
Proof.
  revert result. induction responses as [|response responses IH];
    intros result Hresult; [done |].
  cbn [foldl]. by apply IH, mntr_response_entries.
Qed.

Lemma texts_app (a b : list (error + string)) : texts (a ++ b) = texts a ++ texts b.
Proof. apply omap_app. Qed.

(** The invariant of the retry loop. *)
Lemma mntr_loop_spec host timeout remaining result s s' outcome :
  mntr_loop host timeout remaining result s = (s', outcome) ->
  exists new,
    heard s' = heard s ++ new
    /\ asked s' = asked s ++ replicate (List.length new) "mntr"
    /\ 1 <= List.length new <= S remaining
    /\ match outcome with
       | inr final =>
           final = foldl mntr_response result (texts new) /\ 2 <= size final
       | inl e =>
           List.length new = S remaining
           /\ (last new = Some (inl e)
               \/ exists text,
                    last new = Some (inr text)
                    /\ e = RuntimeError ("Too short response: " ++ strip text)
                    /\ size (foldl mntr_response result (texts new)) <= 1)
       end.
Proof.
  revert result s.
  induction remaining as [|remaining IH]; intros result s;
    cbn [mntr_loop]; unfold keeper_command;
    destruct (four_letter (server s) (get_keeper_port host) timeout "mntr")
      as [k' [e | response]]; cbn [heard asked].
  - intros [= <- <-]. exists [inl e]. cbn. repeat split; try done; try lia.
    by left.
  - destruct (Nat.leb_spec (size (mntr_response result response)) 1) as [Hshort | Hlong].
    + intros [= <- <-]. exists [inr response]. cbn. repeat split; try done; try lia.
      right. by exists response.
    + intros [= <- <-]. exists [inr response]. cbn. repeat split; try done; lia.
  - intros Hloop. apply IH in Hloop as (new & Hheard & Hasked & Hlen & Hout).
    cbn [heard asked] in Hheard, Hasked. exists (inl e :: new).
    rewrite Hheard, Hasked, <- !app_assoc. cbn. repeat split; try done; try lia.
    destruct outcome as [e' | final]; [| done].
    destruct Hout as [Hall Hlast]. split; [lia |].
    destruct new as [|answer new]; [cbn in Hall; lia |]. done.
  - destruct (Nat.leb_spec (size (mntr_response result response)) 1) as [Hshort | Hlong].
    + intros Hloop. apply IH in Hloop as (new & Hheard & Hasked & Hlen & Hout).
      cbn [heard asked] in Hheard, Hasked. exists (inr response :: new).
      rewrite Hheard, Hasked, <- !app_assoc. cbn. repeat split; try done; try lia.
      destruct outcome as [e' | final]; [| done].
      destruct Hout as [Hall Hlast]. split; [lia |].
      destruct new as [|answer new]; [cbn in Hall; lia |]. done.
    + intros [= <- <-]. exists [inr response]. cbn. repeat split; try done; lia.
Qed.

Lemma keeper_mntr_accumulates_answers_aux host obj s s' result :
  keeper_mntr host obj s = (s', inr result) ->
  exists new, result = foldl mntr_response ∅ (texts new).
Proof.
  unfold keeper_mntr. intros Hloop.
  apply mntr_loop_spec in Hloop as (new & _ & _ & _ & -> & _). by exists new.
Qed.





End MntrFacts.

(** ** [check_last_null_pointer_exc] *)

Lemma npe_scan_concat (stamp : string) (logs : list (list string)) :
  npe_scan stamp logs = foldl npe_line (stamp, None) (List.concat logs).
Proof.
  unfold npe_scan. generalize (stamp, @None string).
  induction logs as [|file logs IH]; intros state; [done |].
  cbn [foldl List.concat]. by rewrite IH, foldl_app.
Qed.

Lemma last_default {A : Type} (x : A) (xs : list A) (d d' : A) :
  List.last (x :: xs) d = List.last (x :: xs) d'.
Proof.
  revert x. induction xs as [|y xs IH]; intros x; [done |].
  change (List.last (y :: xs) d = List.last (y :: xs) d'). apply IH.
Qed.

Lemma npe_lines_prev (lines : list string) (prev : string) latest :
  (foldl npe_line (prev, latest) lines).1 = List.last lines prev.
Proof.
  revert prev latest. induction lines as [|line lines IH]; intros prev latest; [done |].
  cbn [foldl npe_line]. rewrite IH.
  destruct lines as [|next lines]; [done |].
  change (List.last (next :: lines) line = List.last (next :: lines) prev).
  apply last_default.
Qed.

Lemma npe_lines_quiet (lines : list string) (prev : string) latest :
  (forall line, In line lines ->
     Text.contains "java.lang.NullPointerException" line = false) ->
  (foldl npe_line (prev, latest) lines).2 = latest.
Proof.
  revert prev latest. induction lines as [|line lines IH]; intros prev latest Hquiet;
    [done |].
  cbn [foldl npe_line]. rewrite (Hquiet line) by (by left).
  apply IH. intros l Hin. apply Hquiet. by right.
Qed.

(** X7: logs without a line that mentions the exception give
    [Result(0, 'OK')], whatever else they hold. *)
Theorem npe_check_is_quiet_without_exception host logs stamp :
  (forall file line, In file logs -> In line file ->
     Text.contains "java.lang.NullPointerException" line = false) ->
  check_last_null_pointer_exc host logs stamp = {| code := 0; message := "OK" |}.
Proof.
  intros Hquiet. unfold check_last_null_pointer_exc.
  destruct (zoo_cfg host); [| done]. destruct logs as [|file logs]; [done |].
  rewrite npe_scan_concat, npe_lines_quiet; [done |].
  intros line Hin. apply in_concat in Hin as (f & Hf & Hline). by apply (Hquiet f).
Qed.


(** ** [check_snapshots] *)

Section SnapshotFacts.
Context {T : Type} (getctime : string -> T) (leb : T -> T -> bool).

Lemma insert_reverse_perm f sorted :
  insert_reverse getctime leb f sorted ≡ₚ f :: sorted.
Proof.
  induction sorted as [|g rest IH]; [done |]. cbn.
  destruct (leb (getctime g) (getctime f)); [done |].
  by rewrite IH, Permutation_swap.
Qed.

(** The sort keeps the files, each as often as it was there. *)
Lemma sorted_reverse_perm files : sorted_reverse getctime leb files ≡ₚ files.
Proof.
  induction files as [|f files IH]; [done |].
  cbn [sorted_reverse foldr]. fold (sorted_reverse getctime leb files).
  by rewrite insert_reverse_perm, IH.
Qed.

Lemma insert_reverse_sorted f sorted :
  (forall a b, leb a b = true \/ leb b a = true) ->
  (forall a b c, leb a b = true -> leb b c = true -> leb a c = true) ->
  StronglySorted (fun a b => leb (getctime b) (getctime a) = true) sorted ->
  StronglySorted (fun a b => leb (getctime b) (getctime a) = true)
                 (insert_reverse getctime leb f sorted).
Proof.
  intros Htotal Htrans. induction 1 as [|g rest Hrest IH Hg]; cbn.
  - by repeat constructor.
  - destruct (leb (getctime g) (getctime f)) eqn:Hgf.
    + constructor; [by constructor |]. constructor; [done |].
      eapply Forall_impl; [apply Hg |]. intros h Hh. cbn in Hh. by eapply Htrans.
    + constructor; [done |].
      rewrite insert_reverse_perm. constructor; [| done].
      by destruct (Htotal (getctime g) (getctime f)) as [Hle | Hle]; [congruence |].
Qed.

(** With a total order on the times the result is in descending order. *)
Lemma sorted_reverse_sorted files :
  (forall a b, leb a b = true \/ leb b a = true) ->
  (forall a b c, leb a b = true -> leb b c = true -> leb a c = true) ->
  StronglySorted (fun a b => leb (getctime b) (getctime a) = true)
                 (sorted_reverse getctime leb files).
Proof.
  intros Htotal Htrans. induction files as [|f files IH]; [constructor |].
  cbn [sorted_reverse foldr]. by apply insert_reverse_sorted.
Qed.

Lemma sorted_reverse_head files first others :
  sorted_reverse getctime leb files = first :: others -> In first files.
Proof.
  intros Hsorted. apply list_elem_of_In. rewrite <- (sorted_reverse_perm files), Hsorted.
  by left.
Qed.

Lemma sorted_reverse_first newest rest :
  (forall g, In g rest -> leb (getctime g) (getctime newest) = true) ->
  exists others, sorted_reverse getctime leb (newest :: rest) = newest :: others.
Proof.
  intros Hrest. cbn [sorted_reverse foldr]. fold (sorted_reverse getctime leb rest).
  destruct (sorted_reverse getctime leb rest) as [|g others] eqn:Hsorted.
  - by exists [].
  - cbn. rewrite Hrest by (by eapply sorted_reverse_head). by eexists.
Qed.

(** X9: [check_snapshots] reports the snapshot with the greatest
    creation time, and among several of that time the one found first
    ([sorted] with [reverse=True] is stable). *)
Theorem check_snapshots_reports_first_newest host older newest rest :
  snapshot_files host = inr (older ++ newest :: rest) ->
  (forall g, In g older -> leb (getctime newest) (getctime g) = false) ->
  (forall g, In g rest -> leb (getctime g) (getctime newest) = true) ->
  check_snapshots getctime leb host = inr {| code := 0; message := newest |}.
Proof.
  intros Hfiles Holder Hrest. unfold check_snapshots. rewrite Hfiles.
  assert (exists others,
            sorted_reverse getctime leb (older ++ newest :: rest) = newest :: others)
    as [others ->]; [| done].
  clear Hfiles. induction older as [|g older IH]; [by apply sorted_reverse_first |].
  specialize (IH (fun h Hh => Holder h (or_intror Hh))).
  destruct IH as [others Hsorted].
  cbn [app sorted_reverse foldr].
  fold (sorted_reverse getctime leb (older ++ newest :: rest)).
  rewrite Hsorted. cbn. rewrite Holder by (by left). by eexists.
Qed.

End SnapshotFacts.

End KeeperFacts.

(** * The process commands *)

Module ProcessFacts.
Import Jinja Process.

#[local] Arguments String.append : simpl nomatch.

Section Rendering.
Context (version_ge : string -> bool) (env : Kwargs).

Lemma render_app (a b : list block) :
  render version_ge env (a ++ b) = render version_ge env a ++ render version_ge env b.
Proof. apply flat_map_app. Qed.

Lemma render_cons (b : block) (rest : list block) :
  render version_ge env (b :: rest)
  = render_block version_ge env b ++ render version_ge env rest.
Proof. done. Qed.

Lemma render_condition (name prefix suffix : string) (o : option string) :
  env !! name = Some (of_text o) ->
  render_block version_ge env
    (If (Truthy name) [Line [Lit prefix; Var name; Lit suffix]] [])
  = condition prefix suffix o.
Proof.
  intros Hname. cbn [render_block holds]. rewrite Hname.
  destruct o as [[|c s]|]; [done | | done].
  cbn [truthy of_text String.eqb negb flat_map render_block render_line
       foldr render_piece app].
  rewrite Hname. cbn. by rewrite TextFacts.append_empty.
Qed.

Lemma render_limit (o : option Z) :
  env !! "limit" = Some (of_int o) ->
  render_block version_ge env (If (Truthy "limit") [Line [Lit "LIMIT "; Var "limit"]] [])
  = limit_line o.
Proof.
  intros Hlimit. cbn [render_block holds]. rewrite Hlimit.
  destruct o as [n|]; [| done]. cbn [truthy of_int limit_line].
  destruct (Z.eqb n 0); [done |].
  cbn [negb flat_map render_block render_line foldr render_piece app].
  rewrite Hlimit. cbn. by rewrite TextFacts.append_empty.
Qed.

Lemma render_from (table : string) (o : option string) :
  env !! "cluster" = Some (of_text o) ->
  render_block version_ge env
    (If (Truthy "cluster")
        [Line [Lit "FROM clusterAllReplicas("; Var "cluster";
               Lit (", " ++ table ++ ")")]]
        [Line [Lit ("FROM " ++ table)]])
  = [from_line table o].
Proof.
  intros Hcluster. cbn [render_block holds]. rewrite Hcluster.
  destruct o as [[|c s]|]; cbn; rewrite ?Hcluster; cbn;
    by rewrite ?TextFacts.append_empty.
Qed.

End Rendering.

Section CommandFacts.
Context {S : Type} `{ProcessServer S}.
Implicit Types (st : @State S) (id usr exclude : option string).

Lemma kill_query_lines vg id usr exclude :
  render vg (kill_process_env id usr exclude) kill_process_query
  = "KILL QUERY" :: "WHERE 1"
    :: condition "AND user = '" "'" usr
    ++ condition "AND user != '" "'" exclude
    ++ condition "AND query_id = '" "'" id.
Proof.
  unfold kill_process_query. rewrite !render_cons.
  rewrite (render_condition _ _ "user" _ _ usr),
    (render_condition _ _ "exclude_user" _ _ exclude),
    (render_condition _ _ "query_id" _ _ id); [| done ..].
  cbn. by rewrite app_nil_r.
Qed.

Lemma condition_nil prefix suffix o :
  condition prefix suffix o = [] <-> given o = false.
Proof. by destruct o as [[|c s]|]. Qed.

(** X10: [kill] sends nothing and fails when neither a query id, nor
    [--all], nor a user selector is given.  Otherwise it sends one KILL
    QUERY whose conditions come from the selectors alone: [--all] adds
    none and removes none, so the query is without any condition exactly
    when [--all] stands alone (an empty text counts as not given). *)
Theorem kill_is_unfiltered_only_with_all id (all : bool) usr exclude st :
  let conditions :=
    condition "AND user = '" "'" usr
    ++ condition "AND user != '" "'" exclude
    ++ condition "AND query_id = '" "'" id in
  (conditions = [] <-> given id || given usr || given exclude = false)
  /\ if given id || all || given usr || given exclude
     then queries (kill_process_command id all usr exclude st).1
          = queries st ++ ["KILL QUERY" :: "WHERE 1" :: conditions]
     else kill_process_command id all usr exclude st
          = (st, inl (UsageError
               "At least one of QUERY_ID, --all, --user and --exclude-user options must be specified.")).
Proof.
  intros conditions. split.
  - unfold conditions. rewrite !app_nil, !condition_nil, !orb_false_iff.
    tauto.
  - unfold kill_process_command.
    destruct (given id || all || given usr || given exclude); [| done].
    cbn [negb]. unfold kill_process, execute_query.
    rewrite kill_query_lines.
    destruct (run_query (server st) _) as [srv [e | found]]; done.
Qed.

Lemma list_processes_filter_lines vg args :
  render vg (list_processes_env args) list_processes_filter
  = from_line "system.processes" (cluster args) :: "WHERE 1"
    :: condition "AND user = '" "'" (user args)
    ++ condition "AND user != '" "'" (exclude_user args)
    ++ condition "AND query_id = '" "'" (query_id args)
    ++ condition "AND lower(query) LIKE lower('" "')" (query_pattern args)
    ++ (if given (query_id args) then []
        else [("ORDER BY " ++ order_by args ++ " DESC")%string])
    ++ limit_line (limit args).
Proof.
  unfold list_processes_filter. rewrite !render_cons.
  rewrite (render_from _ _ "system.processes" (cluster args)),
    (render_condition _ _ "user" _ _ (user args)),
    (render_condition _ _ "exclude_user" _ _ (exclude_user args)),
    (render_condition _ _ "query_id" _ _ (query_id args)),
    (render_condition _ _ "query_pattern" _ _ (query_pattern args)),
    (render_limit _ _ (limit args)); [| done ..].
  cbn [render_block holds render flat_map app].
  replace (list_processes_env args !! "query_id")
    with (Some (of_text (query_id args))) by done.
  fold (given (query_id args)).
  destruct (given (query_id args)); cbn; [by rewrite app_nil_r |].
  replace (list_processes_env args !! "order_by")
    with (Some (VStr (order_by args))) by done.
  cbn. by rewrite app_nil_r.
Qed.

(** X11: the query of [list_processes] filters by each text argument
    that is neither [None] nor empty, in the order user, excluded user,
    query id, pattern; it is ordered (by [order_by], descending) exactly
    when no query id is given; and it carries a LIMIT exactly when
    [limit] is a number other than 0, so that [limit=0] bounds
    nothing. *)
Theorem list_processes_query_shape args st :
  queries (list_processes args st).1
  = queries st ++
    [render (version_ge (server st)) (list_processes_env args)
            list_processes_select
     ++ from_line "system.processes" (cluster args) :: "WHERE 1"
     :: condition "AND user = '" "'" (user args)
     ++ condition "AND user != '" "'" (exclude_user args)
     ++ condition "AND query_id = '" "'" (query_id args)
     ++ condition "AND lower(query) LIKE lower('" "')" (query_pattern args)
     ++ (if given (query_id args) then []
         else [("ORDER BY " ++ order_by args ++ " DESC")%string])
     ++ limit_line (limit args)].
Proof.
  unfold list_processes, execute_query, list_processes_query.
  rewrite render_app, list_processes_filter_lines.
  by destruct (run_query (server st) _).
Qed.

(** X12: [get_process] asks for the processes with the given query id,
    unordered and unbounded, returns the first row of the answer and
    fails with [Process <id> not found.] when there is none.  For the
    empty id the condition is dropped: the query then asks for every
    process, longest running first, and its first row is returned. *)
Theorem get_process_outcome (id : string) st srv answer :
  let text :=
    render (version_ge (server st)) (list_processes_env (get_process_args id))
           list_processes_select
    ++ ["FROM system.processes"; "WHERE 1"]
    ++ match id with
       | EmptyString => ["ORDER BY elapsed DESC"]
       | _ => [("AND query_id = '" ++ id ++ "'")%string]
       end in
  run_query (server st) text = (srv, answer) ->
  get_process id st =
  ({| server := srv; queries := queries st ++ [text]; printed := printed st |},
   match answer with
   | inl e => inl e
   | inr [] => inl (ClickException ("Process " ++ id ++ " not found."))
   | inr (process :: _) => inr process
   end).
Proof.
  intros text Hanswer. unfold get_process, list_processes, execute_query.
  assert (render (version_ge (server st)) (list_processes_env (get_process_args id))
                 list_processes_query = text) as ->.
  { unfold list_processes_query, text.
    rewrite render_app, list_processes_filter_lines. f_equal.
    by destruct id. }
  rewrite Hanswer. by destruct answer as [e | [|process others]].
Qed.

(** X14: the query of [list_merges] reads [system.merges] through
    [clusterAllReplicas] exactly when a non-empty cluster is given, and
    ends with a LIMIT exactly when [limit] is a number other than 0. *)
Theorem list_merges_query_shape (cluster : option string) (limit : option Z) st :
  exists columns,
    queries (list_merges cluster limit st).1
    = queries st ++
      [columns ++ from_line "system.merges" cluster :: limit_line limit]
    /\ hd_error columns = Some "SELECT"
    /\ last columns = Some "thread_id".
Proof.
  unfold list_merges, execute_query.
  set (env := <["cluster" := of_text cluster]> (<["limit" := of_int limit]> ∅)).
  exists (render (version_ge (server st)) env list_merges_select).
  split; [| split].
  - destruct (run_query (server st) _) as [srv answer] eqn:Hanswer.
    cbn [queries fst]. do 2 f_equal.
    unfold list_merges_query. rewrite render_app. f_equal.
    unfold list_merges_filter. rewrite !render_cons.
    rewrite (render_from _ _ "system.merges" cluster),
      (render_limit _ _ limit) by done.
    cbn. by rewrite app_nil_r.
  - done.
  - cbn. replace (env !! "cluster") with (Some (of_text cluster)) by done.
    by destruct (truthy _), (version_ge (server st) "21.3").
Qed.

(** X15: the [list] command never asks for one query id, so its query
    is always ordered; the cluster is the configured one with
    [--on-cluster] and none without; and what it prints is the answer,
    row for row. *)
Theorem list_processes_command_always_orders
    ctx usr exclude query (verbose on_cluster : bool) order limit st :
  let cluster := if on_cluster then Some (get_cluster_name ctx) else None in
  let args := {| user := usr; exclude_user := exclude; query_id := None;
                 query_pattern := query; cluster := cluster; limit := limit;
                 order_by := order; verbose := verbose |} in
  let text :=
    render (version_ge (server st)) (list_processes_env args) list_processes_select
    ++ from_line "system.processes" cluster :: "WHERE 1"
    :: condition "AND user = '" "'" usr
    ++ condition "AND user != '" "'" exclude
    ++ condition "AND lower(query) LIKE lower('" "')" query
    ++ [("ORDER BY " ++ order ++ " DESC")%string]
    ++ limit_line limit in
  list_processes_command ctx usr exclude query verbose on_cluster order limit st
  = match run_query (server st) text with
    | (srv, inl e) =>
        ({| server := srv; queries := queries st ++ [text];
            printed := printed st |}, inl e)
    | (srv, inr processes) =>
        ({| server := srv; queries := queries st ++ [text];
            printed := printed st ++ [processes] |}, inr tt)
    end.
Proof.
  intros cluster args text.
  unfold list_processes_command, list_processes, execute_query.
  fold cluster. fold args.
  assert (render (version_ge (server st)) (list_processes_env args)
                 list_processes_query = text) as ->.
  { unfold list_processes_query, text.
    by rewrite render_app, list_processes_filter_lines. }
  by destruct (run_query (server st) text) as [srv [e | processes]].
Qed.

End CommandFacts.

End ProcessFacts.

(** * The table of [replica list] *)

Module ReplicaListFacts.
Import Keeper Jinja ReplicaList.

#[local] Arguments String.append : simpl nomatch.

Lemma digits_have_no_space (d : Decimal.uint) :
  has_space (NilEmpty.string_of_uint d) = false.
Proof. induction d; cbn; done. Qed.

(** [str(n)] is made of digits and at most a sign. *)
Lemma str_int_has_no_space (n : Z) : has_space (str_int n) = false.
Proof.
  unfold str_int, NilZero.string_of_int, NilZero.string_of_uint.
  destruct (Z.to_int n) as [d | d]; destruct d; cbn;
    try done; apply digits_have_no_space.
Qed.

(** [str] tells the integers apart. *)
Lemma str_int_inj (n m : Z) : str_int n = str_int m -> n = m.
Proof.
  unfold str_int. intros Heq. apply DecimalZ.to_int_inj.
  assert (forall k, Z.to_int k <> Decimal.Pos Decimal.Nil
                    /\ Z.to_int k <> Decimal.Neg Decimal.Nil) as Hvalid.
  { intros [|p|p]; cbn; split; try done; intros [= Hnil];
      by apply DecimalPos.Unsigned.to_uint_nonnil in Hnil. }
  destruct (Hvalid n) as [Hn1 Hn2], (Hvalid m) as [Hm1 Hm2].
  pose proof (NilZero.isi _ Hn1 Hn2) as Hn.
  pose proof (NilZero.isi _ Hm1 Hm2) as Hm.
  rewrite Heq in Hn. congruence.
Qed.

Lemma cut_at_first_space (a a' rest rest' : string) :
  has_space a = false -> has_space a' = false ->
  (a ++ String " "%char rest)%string = (a' ++ String " "%char rest')%string ->
  a = a' /\ rest = rest'.
Proof.
  revert a'. induction a as [|c a IH]; intros [|c' a']; cbn.
  - intros _ _ [= ->]. done.
  - intros _ Hc [= <- _]. done.
  - intros Hc _ [= -> _]. done.
  - intros [_ Ha]%orb_false_iff [_ Ha']%orb_false_iff [= -> Heq].
    destruct (IH a' Ha Ha' Heq) as [-> ->]. done.
Qed.

(** X13: the row that [replica list] shows keeps every field of the
    replica: two replicas with the same row are the same record.  In
    particular the column [active / total] can be read back, since
    neither number holds a blank. *)
Theorem table_formatter_is_injective (a b : ReplicaRecord) :
  _table_formatter a = _table_formatter b -> a = b.
Proof.
  destruct a as [db tbl zk name ro delay queue active total].
  destruct b as [db' tbl' zk' name' ro' delay' queue' active' total'].
  unfold _table_formatter. cbn [database table zookeeper_path replica_name
    is_readonly absolute_delay queue_size active_replicas total_replicas].
  intros [= -> -> -> -> -> -> -> Hratio].
  change (str_int active ++ " / " ++ str_int total)%string
    with (str_int active ++ String " "%char ("/ " ++ str_int total))%string in Hratio.
  change (str_int active' ++ " / " ++ str_int total')%string
    with (str_int active' ++ String " "%char ("/ " ++ str_int total'))%string in Hratio.
  apply cut_at_first_space in Hratio as [Hactive Htotal];
    [| apply str_int_has_no_space ..].
  injection Htotal as Htotal.
  apply str_int_inj in Hactive as ->. apply str_int_inj in Htotal as ->. done.
Qed.

End ReplicaListFacts.

(** * The checks and commands on sample inputs *)

Module SampleFacts.
Import Keeper Jinja Process ReplicaList Samples.




Lemma mntr_sample_run :
  keeper_mntr bare_host ∅ (mntr_session short_then_full)
  = ({| Keeper.server := {| answers := [] |};
        asked := ["mntr"; "mntr"]; heard := short_then_full |},
     inr mntr_seen).
Proof. vm_compute. reflexivity. Qed.



Lemma npe_sample_quiet :
  check_last_null_pointer_exc zoo_host quiet_logs "2024-01-01 09:00:00"
  = {| code := 0; message := "OK" |}.
Proof.
  apply KeeperFacts.npe_check_is_quiet_without_exception.
  intros file line [<- | []] [<- | [<- | []]]; reflexivity.
Defined.


Lemma snapshot_sample_newest :
  snapshot_files zoo_host
  = inr ["/var/zk/snapshot.1"; "/var/zk/snapshot.2"; "/var/zk/old/snapshot.0"]
  /\ check_snapshots sample_ctime Z.leb zoo_host
     = inr {| code := 0; message := "/var/zk/snapshot.2" |}.
Proof.
  split; [reflexivity |].
  apply (KeeperFacts.check_snapshots_reports_first_newest sample_ctime Z.leb
           zoo_host ["/var/zk/snapshot.1"] "/var/zk/snapshot.2"
           ["/var/zk/old/snapshot.0"]).
  - reflexivity.
  - intros g [<- | []]. reflexivity.
  - intros g [<- | []]. reflexivity.
Defined.

Lemma get_process_sample :
  (get_process "abc" one_process).2 = inr (process_row "abc")
  /\ last (queries (get_process "abc" one_process).1)
     = Some (render (fun _ => true)
                    (list_processes_env (get_process_args "abc"))
                    list_processes_select
             ++ ["FROM system.processes"; "WHERE 1"; "AND query_id = 'abc'"]).
Proof.
  rewrite (@ProcessFacts.get_process_outcome FixedServer fixed_server
             "abc" one_process
             (Process.server one_process) (inr [process_row "abc"]) eq_refl).
  split; reflexivity.
Defined.


Lemma table_formatter_sample :
  _table_formatter (replica "shard1" "events" true) = _table_formatter events
  /\ replica "shard1" "events" true = events.
Proof.
  split; [reflexivity |].
  exact (ReplicaListFacts.table_formatter_is_injective
           (replica "shard1" "events" true) events eq_refl).
Defined.

End SampleFacts.

(** * The call traces of the replica commands *)

Section Traces.
Context {E : Type} `{RemoteEngine E}.
Implicit Types (w : @World E) (r : ReplicaRecord) (rs : list ReplicaRecord).

Lemma restore_iteration_calls ctx cluster r w :
  exists calls,
    sent (restore_iteration ctx cluster false r w).1 = sent w ++ calls
    /\ iteration_calls cluster r calls.
Proof.
  destruct (executeDDL (engine w) (restore_call cluster r))
    as [e1 [[] | [msg | name]]] eqn:Hfirst.
  - exists [restore_call cluster r]. split; [| by left].
    unfold restore_iteration, try_except_ClickhouseError.
    by rewrite restore_table_replica_call, (mutating_call_live _ _ _ _ Hfirst).
  - destruct (executeDDL e1 (restart_call cluster r)) as [e2 restarted] eqn:Hsecond.
    destruct (executeDDL e2 (restore_call cluster r)) as [e3 retried] eqn:Hthird.
    destruct (classify msg) eqn:Hclass.
    + rewrite (restore_iteration_A ctx cluster r w e1 msg e2 restarted e3 retried)
        by done.
      destruct restarted as [[] | e].
      * exists [restore_call cluster r; restart_call cluster r;
                restore_call cluster r].
        split; [cbn; by rewrite <- !app_assoc | by right; right].
      * exists [restore_call cluster r; restart_call cluster r].
        split; [cbn; by rewrite <- !app_assoc | by right; left].
    + rewrite (restore_iteration_B ctx cluster r w e1 msg e2 restarted) by done.
      exists [restore_call cluster r; restart_call cluster r].
      split; [cbn; by rewrite <- !app_assoc | by right; left].
    + rewrite (restore_iteration_failed _ _ _ _ _ _ Hfirst),
        restore_except_unclassified by done.
      exists [restore_call cluster r]. split; [done | by left].
  - exists [restore_call cluster r]. split; [| by left].
    unfold restore_iteration, try_except_ClickhouseError.
    by rewrite restore_table_replica_call, (mutating_call_live _ _ _ _ Hfirst).
Qed.

(** X16: a live run of the restore loop handles the replicas in their
    order and none twice: what it sends is, replica by replica, a
    restore, or a restore and a restart, or these and one more restore;
    so no replica is restarted before its restore was tried, and none
    gets more than one restart or more than two restores.  A run that
    returns has handled every replica. *)
Theorem restore_loop_trace ctx cluster rs w :
  exists handled groups,
    handled `prefix_of` rs
    /\ Forall2 (iteration_calls cluster) handled groups
    /\ sent (for_each rs (restore_iteration ctx cluster false) w).1
       = sent w ++ List.concat groups
    /\ ((for_each rs (restore_iteration ctx cluster false) w).2 = Ok tt ->
        handled = rs).
Proof.
  revert w. induction rs as [|r rs IH]; intros w.
  - exists [], []. cbn. by rewrite app_nil_r.
  - rewrite for_each_cons.
    destruct (restore_iteration_calls ctx cluster r w) as (calls & Hsent & Hcalls).
    destruct (restore_iteration ctx cluster false r w) as [w1 [[] | e]].
    + destruct (IH w1) as (handled & groups & Hprefix & Hgroups & Htrace & Hall).
      exists (r :: handled), (calls :: groups). cbn in Hsent.
      split; [by apply prefix_cons |]. split; [by constructor |].
      split; [cbn; by rewrite Htrace, Hsent, <- app_assoc |].
      intros Hok. by rewrite Hall.
    + exists [r], [calls]. cbn in Hsent.
      split; [apply prefix_cons, prefix_nil |].
      split; [constructor; [done | constructor] |].
      split; [cbn; by rewrite app_nil_r |]. done.
Qed.

Lemma restore_iteration_annotated (P : Call -> Prop) ctx cluster dry_run r w :
  P (restore_call cluster r) -> P (restart_call cluster r) ->
  grows_by P w (restore_iteration ctx cluster dry_run r w).1.
Proof.
  intros Hrestore Hrestart.
  unfold restore_iteration, try_except_ClickhouseError.
  pose proof (mutating_call_grows P (restore_call cluster r) dry_run w Hrestore)
    as Hcall.
  rewrite restore_table_replica_call.
  destruct (mutating_call _ dry_run w) as [w1 [[] | [text | name]]]; try by apply Hcall.
  eapply grows_by_trans; [by apply Hcall |].
  unfold restore_except.
  destruct (_ || _); [| destruct (Text.contains _ text)].
  - apply bind_grows; [apply logging_warning_grows | intros _ w2].
    apply bind_grows; [| intros _ w3]; by apply mutating_call_grows.
  - apply bind_grows; [apply logging_warning_grows | intros _ w2].
    by apply mutating_call_grows.
  - apply grows_by_refl.
Qed.

Lemma for_each_annotated {A : Type} (P : Call -> Prop) (body : A -> M unit)
    (xs : list A) w :
  (forall x w', grows_by P w' (body x w').1) ->
  grows_by P w (for_each xs body w).1.
Proof.
  intros Hbody. revert w. induction xs as [|x xs IH]; intros w.
  - apply grows_by_refl.
  - rewrite for_each_cons. specialize (Hbody x w).
    destruct (body x w) as [w' [[] | e]]; [| done].
    eapply grows_by_trans; [apply Hbody | apply IH].
Qed.

(** X17: every call of one run, sent or recorded under dry-run, carries
    the same cluster annotation: the configured cluster name when
    [--on-cluster] is set and none when it is not.  This holds for
    [restore] and for [restart]. *)
Theorem calls_carry_the_cluster_annotation
    ctx (_all on_cluster dry_run : bool) kwargs w :
  let annotated := fun c => call_cluster c = annotation ctx on_cluster in
  (exists calls entries,
     sent (restore_command ctx _all on_cluster dry_run kwargs w).1 = sent w ++ calls
     /\ log (restore_command ctx _all on_cluster dry_run kwargs w).1
        = log w ++ entries
     /\ Forall annotated calls /\ Forall annotated (intended entries))
  /\ (exists calls entries,
        sent (restart_replica_command ctx on_cluster dry_run kwargs w).1
        = sent w ++ calls
        /\ log (restart_replica_command ctx on_cluster dry_run kwargs w).1
           = log w ++ entries
        /\ Forall annotated calls /\ Forall annotated (intended entries)).
Proof.
  intros annotated.
  assert (forall w0 w', sent w0 = sent w -> log w0 = log w ->
            grows_by annotated w0 w' ->
            exists calls entries,
              sent w' = sent w ++ calls /\ log w' = log w ++ entries
              /\ Forall annotated calls /\ Forall annotated (intended entries))
    as Hframe.
  { intros w0 w' Hs Hl [_ (calls & entries & Hsent & Hlog & Hc & Hi)].
    exists calls, entries. by rewrite <- Hs, <- Hl. }
  split.
  - unfold restore_command, bind.
    destruct (kwargs !! "is_readonly") as [v|].
    + apply (Hframe w); [done .. | apply grows_by_refl].
    + unfold list_table_replicas.
      destruct (query_replicas (engine w)) as [rows | e].
      * eapply Hframe; [| | apply for_each_annotated]; [done .. |].
        intros r w'. by apply restore_iteration_annotated.
      * eapply Hframe; [| | apply grows_by_refl]; done.
  - unfold restart_replica_command, bind, list_table_replicas.
    destruct (query_replicas (engine w)) as [rows | e].
    + eapply Hframe; [| | apply for_each_annotated]; [done .. |].
      intros r w'. by apply (mutating_call_grows annotated).
    + eapply Hframe; [| | apply grows_by_refl]; done.
Qed.

End Traces.
